(** * Colormap Maker: a shallow embedding of [main.py]

    The program is a Qt editor around a colour-gradient widget.  Its own
    code (the event handlers of [ColormapMakerApp]) is embedded below as
    state-passing functions.  What it imports is kept apart:

    - the Qt colour helpers ([QColor], [qRgb], ...) are modelled on 32-bit
      integers as Qt documents them;
    - the gradient object and the widget that owns it
      ([EditableColormap], [ColorMapWidget]) are an interface,
      [ColormapLib], so that the handlers are written once for every
      implementation of it; [Gradient] is the implementation described by
      the specification.

    Python floats are represented by rationals kept in lowest terms, and
    a saved file by the values its text denotes. *)

From Stdlib Require Import ZArith QArith Qround List String DecimalString.
From Stdlib Require Import Bool Lia Lqa.
Import ListNotations.

Local Open Scope Z_scope.

(* ------------------------------------------------------------------ *)
(** ** Python values, exceptions and results *)

Inductive ExcType : Type :=
| ValueError
| IndexError
| TypeError
| OSError
| ValidationError.

Record PyExc : Type := mkExc { exc_type : ExcType; exc_msg : string }.

(** [str(e)] *)
Definition str_exc (e : PyExc) : string := exc_msg e.

Inductive PyResult (A : Type) : Type :=
| Ok (a : A)
| Raise (e : PyExc).
Arguments Ok {A} a.
Arguments Raise {A} e.

Definition bind {A B} (r : PyResult A) (k : A -> PyResult B) : PyResult B :=
  match r with
  | Ok a => k a
  | Raise e => Raise e
  end.

Declare Scope py_scope.
Delimit Scope py_scope with py.
Notation "x <- r ;; k" := (bind r (fun x => k))
  (at level 61, r at next level, right associativity) : py_scope.
Notation "' pat <- r ;; k" := (bind r (fun x => match x with pat => k end))
  (at level 61, pat pattern, r at next level, right associativity) : py_scope.
Local Open Scope py_scope.

(** [l[i]]: a negative index counts from the end, an index out of range
    raises [IndexError]. *)
Definition py_index {A} (l : list A) (i : Z) : PyResult A :=
  let n := Z.of_nat (List.length l) in
  let j := if i <? 0 then i + n else i in
  if (j <? 0) || (n <=? j) then
    Raise (mkExc IndexError "list index out of range")
  else
    match nth_error l (Z.to_nat j) with
    | Some a => Ok a
    | None => Raise (mkExc IndexError "list index out of range")
    end.

(** [l[1:-1]] *)
Definition slice_1_m1 {A} (l : list A) : list A := removelast (tl l).

(** [r, g, b = l] *)
Definition unpack3 {A} (l : list A) : PyResult (A * A * A) :=
  match l with
  | [r; g; b] => Ok (r, g, b)
  | _ :: _ :: _ :: _ :: _ =>
      Raise (mkExc ValueError "too many values to unpack (expected 3)")
  | _ =>
      Raise (mkExc ValueError
               ("not enough values to unpack (expected 3, got "
                ++ NilEmpty.string_of_uint (Nat.to_uint (List.length l))
                ++ ")"))
  end.

(** [a / b] on floats, the quotient in lowest terms. *)
Definition py_div (a b : Q) : Q := Qred (a / b).

(** Rounding to the nearest integer, ties to even: the rounding of
    [format(x, '.6f')]. *)
Definition round_half_even (x : Q) : Z :=
  let f := Qfloor x in
  match Qcompare (x - inject_Z f) (1 # 2) with
  | Lt => f
  | Gt => f + 1
  | Eq => if Z.even f then f else f + 1
  end.

(** The value read back from [f"{x:.6f}"]. *)
Definition fmt6 (x : Q) : Q :=
  Qred (round_half_even (x * 1000000) # 1000000).

(** The value displayed by [f"{x:.4f}"]. *)
Definition fmt4 (x : Q) : Q :=
  Qred (round_half_even (x * 10000) # 10000).

(* ------------------------------------------------------------------ *)
(** ** Qt colours *)

(** A [QRgb] is [0xAARRGGBB]. *)
Definition qRed (rgb : Z) : Z := Z.land (Z.shiftr rgb 16) 255.
Definition qGreen (rgb : Z) : Z := Z.land (Z.shiftr rgb 8) 255.
Definition qBlue (rgb : Z) : Z := Z.land rgb 255.

Definition qRgb (r g b : Z) : Z :=
  Z.lor (Z.shiftl 255 24)
    (Z.lor (Z.shiftl (Z.land r 255) 16)
       (Z.lor (Z.shiftl (Z.land g 255) 8) (Z.land b 255))).

Record QColor : Type := mkColor { red : Z; green : Z; blue : Z }.

(** [QColor(rgb)]: the alpha byte is ignored. *)
Definition QColor_of_rgb (rgb : Z) : QColor :=
  mkColor (qRed rgb) (qGreen rgb) (qBlue rgb).

(** [color.rgb()]: always opaque. *)
Definition QColor_rgb (c : QColor) : Z := qRgb (red c) (green c) (blue c).

(** [qRound] on a non-negative value. *)
Definition qRound (x : Q) : Z := Qfloor (x + (1 # 2)).

(** Qt keeps a channel given as a float on 16 bits and reads it back on
    8 bits with [qt_div_257]. *)
Definition qt_div_257 (x : Z) : Z :=
  Z.shiftr (x + 128 - Z.shiftr (x + 128) 8) 8.

Definition clamp01 (x : Q) : Q :=
  if Qle_bool x 0 then 0%Q else if Qle_bool 1 x then 1%Q else x.

Definition channel_of_float (x : Q) : Z :=
  qt_div_257 (qRound (clamp01 x * 65535)).

(** [QColor.fromRgbF(r, g, b)], exact for channels within [0, 1].  For a
    channel outside that range Qt keeps the colour in an extended format
    of lower precision; that case is only approximated here, by
    saturation of the channel. *)
Definition fromRgbF (r g b : Q) : QColor :=
  mkColor (channel_of_float r) (channel_of_float g) (channel_of_float b).

Definition Qt_white : QColor := mkColor 255 255 255.

(** A stop as [colorStops()] returns it: [stop.pos], [stop.rgb]. *)
Record ColorStop : Type := mkStop { pos : Q; rgb : Z }.

(* ------------------------------------------------------------------ *)
(** ** The imported gradient object and its widget *)

(** What [main.py] calls on [EditableColormap] (a [QwtLinearColorMap]) and
    on the [ColorMapWidget] that holds it.  A method that mutates the
    object returns the object after the call, or the exception raised. *)
Class ColormapLib : Type := {
  Colormap : Type;
  (** [EditableColormap(color1, color2)] *)
  EditableColormap : QColor -> QColor -> Colormap;
  (** [colormap.addColorStop(pos, rgb)] *)
  addColorStop : Colormap -> Q -> Z -> PyResult Colormap;
  (** [colormap.colorStops()] *)
  colorStops : Colormap -> list ColorStop;
  (** [colormap.rgb(QwtInterval(0, 1), pos)] *)
  cm_rgb : Colormap -> Q -> Z;
  (** [colormap_widget.add_handle_at_relative_pos(pos, color)] *)
  add_handle_at_relative_pos : Colormap -> Q -> QColor -> PyResult Colormap;
  (** [colormap_widget.edit_color_stop(index, None, color)] *)
  edit_color_stop : Colormap -> Z -> QColor -> PyResult Colormap
}.

(** [range(lo, hi)] and [range(lo, hi, step)] *)
Definition py_range (lo hi : Z) : list Z :=
  map (fun k => lo + Z.of_nat k) (seq 0 (Z.to_nat (hi - lo))).

Definition py_range_step (lo hi step : Z) : list Z :=
  map (fun k => lo + step * Z.of_nat k)
      (seq 0 (Z.to_nat ((hi - lo + step - 1) / step))).

(** A [for] loop whose body may raise. *)
Fixpoint for_each {A S} (l : list A) (body : A -> S -> PyResult S) (s : S)
  : PyResult S :=
  match l with
  | [] => Ok s
  | a :: l' => s' <- body a s ;; for_each l' body s'
  end.

(** One row of a table of the window: index, position as displayed,
    colour. *)
Record Row : Type := mkRow { row_index : Z; row_pos : Q; row_color : QColor }.

Inductive MessageBox : Type :=
| Critical (title text : string).

Definition newline : string := String (Ascii.ascii_of_nat 10) EmptyString.

(** The values denoted by the text that [save_colormap] writes. *)
Record SavedFile : Type := mkSaved {
  sf_color_positions : list Q;
  sf_rgb_colors : list (list Q);
  sf_color1_rgb : Z;
  sf_color2_rgb : Z;
  sf_addColorStop : list (Q * Z);
  sf_rgb_array : list (list Z);
  sf_positions : list Q
}.

(** The text in a file that [save_colormap] has opened: the whole text,
    or, when the body raised at [stops[0]], the text up to there, which
    holds the two arrays and stops inside [def create_colormap]. *)
Inductive FileText : Type :=
| WholeFile (file : SavedFile)
| BrokenFile (color_positions : list Q) (rgb_colors : list (list Q)).

Inductive ColorMethod : Type :=
| ChooseColor
| InterpolateFromColormap.

(** What the user enters in the dialog of [add_new_color_stop]; a colour
    dialog that is cancelled gives no valid colour. *)
Record AddStopInput : Type := mkAddStop {
  dialog_accepted : bool;
  spinner_value : Q;
  color_method : ColorMethod;
  picked_color : option QColor
}.

Section Main.

Context {L : ColormapLib}.

(** The namespace of an imported file, as far as it is looked at. *)
Record PyModule : Type := mkModule {
  m_create_colormap : option (unit -> PyResult Colormap);
  m_color_positions : option (list Q);
  m_rgb_colors : option (list (list Q));
  m_get_rgb_array : option (list Z -> PyResult (list (list Z)));
  m_get_positions : option (list Z -> PyResult (list Q))
}.

(** The window: the colormap of its widget, its two tables, and the
    attribute [num_colors] when something has set it. *)
Record App : Type := mkApp {
  colormap : Colormap;
  stops_table : list Row;
  rgb_preview : list Row;
  num_colors : option Z
}.

(** What a handler leaves behind: the window, the message boxes shown,
    the exception that left the handler uncaught, the file created or
    truncated, with its text. *)
Record Outcome : Type := mkOutcome {
  app_after : App;
  dialogs : list MessageBox;
  escaped : option PyExc;
  written : option (string * FileText)
}.

Definition returns (a : App) : Outcome := mkOutcome a [] None None.
Definition escapes (a : App) (e : PyExc) : Outcome :=
  mkOutcome a [] (Some e) None.

Definition enumerate {A} (l : list A) : list (Z * A) :=
  combine (py_range 0 (Z.of_nat (List.length l))) l.

(** [update_tables] *)
Definition update_tables (self : App) : App :=
  let colormap := colormap self in
  let stops := colorStops colormap in
  let stops_rows :=
    map (fun '(i, stop) =>
           mkRow i (fmt4 (pos stop)) (QColor_of_rgb (rgb stop)))
        (enumerate stops) in
  let num_colors' := 512 in
  let preview_rows :=
    map (fun i =>
           let pos := py_div (inject_Z i) (inject_Z (num_colors' - 1)) in
           let rgb_int := cm_rgb colormap pos in
           mkRow i (fmt4 pos) (QColor_of_rgb rgb_int))
        (py_range 0 num_colors') in
  mkApp colormap stops_rows preview_rows (num_colors self).

(** The list [positions] built by [save_colormap]. *)
Definition saved_positions : list Q :=
  map (fun i => py_div (inject_Z i) 511) (py_range 0 512).

(** The body of [with open(filename, 'w') as f] in [save_colormap]. *)
Definition write_colormap (colormap : Colormap) : PyResult SavedFile :=
  let stops := colorStops colormap in
  let color_positions := map (fun stop => fmt6 (pos stop)) stops in
  let rgb_colors :=
    map (fun stop =>
           let color := QColor_of_rgb (rgb stop) in
           [fmt6 (py_div (inject_Z (red color)) 255);
            fmt6 (py_div (inject_Z (green color)) 255);
            fmt6 (py_div (inject_Z (blue color)) 255)])
        stops in
  stop0 <- py_index stops 0 ;;
  stopN <- py_index stops (-1) ;;
  let first_color := QColor_of_rgb (rgb stop0) in
  let last_color := QColor_of_rgb (rgb stopN) in
  let intermediate :=
    map (fun stop =>
           let color := QColor_of_rgb (rgb stop) in
           (fmt6 (pos stop), QColor_rgb color))
        (slice_1_m1 stops) in
  let positions := saved_positions in
  let rgb_values :=
    map (fun pos =>
           let color := QColor_of_rgb (cm_rgb colormap pos) in
           [red color; green color; blue color])
        positions in
  let position_lines :=
    map (fun i => map fmt6 (firstn 10 (skipn (Z.to_nat i) positions)))
        (py_range_step 0 512 10) in
  Ok (mkSaved color_positions rgb_colors
        (QColor_rgb first_color) (QColor_rgb last_color)
        intermediate rgb_values (List.concat position_lines)).

(** What the file holds when the body of [save_colormap] raises: both
    arrays are written before [stops[0]] is evaluated. *)
Definition written_before_failure (colormap : Colormap) : FileText :=
  let stops := colorStops colormap in
  BrokenFile
    (map (fun stop => fmt6 (pos stop)) stops)
    (map (fun stop =>
            let color := QColor_of_rgb (rgb stop) in
            [fmt6 (py_div (inject_Z (red color)) 255);
             fmt6 (py_div (inject_Z (green color)) 255);
             fmt6 (py_div (inject_Z (blue color)) 255)])
         stops).

(** [save_colormap]: [filename] is what the file dialog returns,
    [opened] what [open(filename, 'w')] does.  Opening creates or
    truncates the file; when the body then raises, the file keeps the
    text written so far. *)
Definition save_colormap (self : App) (filename : string)
    (opened : PyResult unit) : Outcome :=
  if String.eqb filename "" then returns self
  else
    match opened with
    | Raise e => escapes self e
    | Ok _ =>
        match write_colormap (colormap self) with
        | Raise e =>
            mkOutcome self [] (Some e)
              (Some (filename, written_before_failure (colormap self)))
        | Ok file => mkOutcome self [] None (Some (filename, WholeFile file))
        end
    end.

(** The function [create_colormap] of a saved file. *)
Definition create_colormap (file : SavedFile) (_ : unit)
  : PyResult Colormap :=
  let colormap :=
    EditableColormap (QColor_of_rgb (sf_color1_rgb file))
                     (QColor_of_rgb (sf_color2_rgb file)) in
  for_each (sf_addColorStop file)
           (fun '(p, c) cm => addColorStop cm p c) colormap.


(** A function written [def f():] called with the positional arguments
    [args]. *)
Definition call_no_params {A} (name : string) (result : A) (args : list Z)
  : PyResult A :=
  match args with
  | [] => Ok result
  | [_] =>
      Raise (mkExc TypeError
               (name ++ "() takes 0 positional arguments but 1 was given"))
  | _ =>
      Raise (mkExc TypeError
               (name ++ "() takes 0 positional arguments but "
                ++ NilEmpty.string_of_uint (Nat.to_uint (List.length args))
                ++ " were given"))
  end.

(** The namespace obtained by executing a saved file. *)
Definition exec_file (file : SavedFile) : PyModule :=
  mkModule
    (Some (create_colormap file))
    (Some (sf_color_positions file))
    (Some (sf_rgb_colors file))
    (Some (call_no_params "get_rgb_array" (sf_rgb_array file)))
    (Some (call_no_params "get_positions" (sf_positions file))).

(** The second branch of [load_colormap]: a colormap from
    [color_positions] and [rgb_colors]. *)
Definition color_at (rgb_colors : list (list Q)) (i : Z) : PyResult QColor :=
  c <- py_index rgb_colors i ;;
  r <- py_index c 0 ;;
  g <- py_index c 1 ;;
  b <- py_index c 2 ;;
  Ok (fromRgbF r g b).

Definition colormap_from_arrays (color_positions : list Q)
    (rgb_colors : list (list Q)) : PyResult Colormap :=
  first_color <- color_at rgb_colors 0 ;;
  last_color <- color_at rgb_colors (-1) ;;
  let colormap := EditableColormap first_color last_color in
  for_each (py_range 1 (Z.of_nat (List.length color_positions) - 1))
    (fun i cm =>
       pos <- py_index color_positions i ;;
       c <- py_index rgb_colors i ;;
       '(r, g, b) <- unpack3 c ;;
       let color := fromRgbF r g b in
       addColorStop cm pos (QColor_rgb color))
    colormap.

(** The [try] block of [load_colormap]. *)
Definition load_module (imported : PyResult PyModule) : PyResult Colormap :=
  module <- imported ;;
  match m_create_colormap module with
  | Some create => create tt
  | None =>
      match m_color_positions module, m_rgb_colors module with
      | Some color_positions, Some rgb_colors =>
          colormap_from_arrays color_positions rgb_colors
      | _, _ =>
          Raise (mkExc ValueError "File does not contain valid colormap data")
      end
  end.

(** [colormap_widget.set_colormap(colormap)] *)
Definition set_colormap (self : App) (cm : Colormap) : App :=
  mkApp cm (stops_table self) (rgb_preview self) (num_colors self).

(** [load_colormap]: [imported] is what importing the chosen file gives. *)
Definition load_colormap (self : App) (filename : string)
    (imported : PyResult PyModule) : Outcome :=
  if String.eqb filename "" then returns self
  else
    match load_module imported with
    | Ok colormap => returns (update_tables (set_colormap self colormap))
    | Raise e =>
        mkOutcome self
          [Critical "Error Loading Colormap"
             ("Failed to load colormap from file:" ++ newline ++ str_exc e)]
          None None
    end.

(** [edit_color] *)
Definition edit_color (self : App) (row column : Z)
    (new_color : option QColor) : Outcome :=
  if column =? 2 then
    let stops := colorStops (colormap self) in
    match py_index stops row with
    | Raise e => escapes self e
    | Ok _ =>
        match new_color with
        | Some c =>
            match edit_color_stop (colormap self) row c with
            | Ok cm => returns (update_tables (set_colormap self cm))
            | Raise e => escapes self e
            end
        | None => returns self
        end
    end
  else returns self.

(** [edit_selected_handle_color]; [handle_index] is the handle the widget
    finds closest to the last click. *)
Definition edit_selected_handle_color (self : App) (handle_index : Z)
    (new_color : option QColor) : Outcome :=
  match new_color with
  | Some c =>
      match edit_color_stop (colormap self) handle_index c with
      | Ok cm => returns (update_tables (set_colormap self cm))
      | Raise e => escapes self e
      end
  | None => returns self
  end.

(** [add_new_color_stop] *)
Definition add_new_color_stop (self : App) (dialog : AddStopInput)
  : Outcome :=
  if dialog_accepted dialog then
    let position := spinner_value dialog in
    let colormap := colormap self in
    let stops := colorStops colormap in
    let existing_positions := map pos stops in
    let chosen :=
      match color_method dialog with
      | ChooseColor => picked_color dialog
      | InterpolateFromColormap =>
          Some (QColor_of_rgb (cm_rgb colormap position))
      end in
    match chosen with
    | None => returns self
    | Some color =>
        match add_handle_at_relative_pos colormap position color with
        | Ok cm => returns (update_tables (set_colormap self cm))
        | Raise e => escapes self e
        end
    end
  else returns self.

(** The window after [__init__], for the colormap the widget starts with. *)
Definition init_app (cm : Colormap) : App :=
  update_tables (mkApp cm [] [] None).

End Main.

(* ------------------------------------------------------------------ *)
(** ** The gradient of the specification *)

Definition Qltb (a b : Q) : bool := negb (Qle_bool b a).

Module Gradient.

(** Modelled from the spec: the gradient object, which [main.py] imports
    and does not define.  "Gradient: ordered sequence of ColorStop (by
    position)". *)
Definition t : Type := list ColorStop.

(** Modelled from the spec: the constructor of the imported gradient
    class; "first color and last color become the boundary stops", at
    positions 0.0 and 1.0. *)
Definition make (color1 color2 : QColor) : t :=
  [mkStop 0 (QColor_rgb color1); mkStop 1 (QColor_rgb color2)].

Definition occupied (g : t) (p : Q) : bool :=
  existsb (fun s => Qeq_bool (pos s) p) g.

(** "ordering by position is maintained for interpolation (insertion
    order irrelevant)" *)
Fixpoint insert (s : ColorStop) (g : t) : t :=
  match g with
  | [] => [s]
  | x :: g' => if Qle_bool (pos s) (pos x) then s :: g else x :: insert s g'
  end.

(** Modelled from the spec: the imported method that adds a stop;
    "AddStop(position, color) -- rejects if position already occupied
    (validation error)". *)
Definition AddStop (g : t) (p : Q) (c : Z) : PyResult t :=
  if occupied g p then
    Raise (mkExc ValidationError "position already occupied")
  else Ok (insert (mkStop p c) g).

Fixpoint set_color (n : nat) (c : Z) (g : t) : t :=
  match g, n with
  | [], _ => []
  | s :: g', O => mkStop (pos s) c :: g'
  | s :: g', S n' => s :: set_color n' c g'
  end.

Definition valid_index (g : t) (i : Z) : bool :=
  (0 <=? i) && (i <? Z.of_nat (List.length g)).

(** Modelled from the spec: the imported method that recolours a stop;
    "EditStopColor(index, color) -- always succeeds for a valid index,
    fails with IndexError otherwise". *)
Definition EditStopColor (g : t) (i : Z) (c : QColor) : PyResult t :=
  if valid_index g i then Ok (set_color (Z.to_nat i) (QColor_rgb c) g)
  else Raise (mkExc IndexError "no such stop").

Fixpoint remove_nth (n : nat) (g : t) : t :=
  match g, n with
  | [], _ => []
  | _ :: g', O => g'
  | s :: g', S n' => s :: remove_nth n' g'
  end.

(** Modelled from the spec: the imported operation that deletes a stop;
    "RemoveStop(index) -- rejected if it would remove the first or last
    boundary stop, otherwise succeeds", the rejection being a validation
    error.  An index that names no stop is an [IndexError], as for
    [EditStopColor]. *)
Definition RemoveStop (g : t) (i : Z) : PyResult t :=
  if valid_index g i then
    if (i =? 0) || (i =? Z.of_nat (List.length g) - 1) then
      Raise (mkExc ValidationError "cannot remove a boundary stop")
    else Ok (remove_nth (Z.to_nat i) g)
  else Raise (mkExc IndexError "no such stop").

(** "round", halves upwards. *)
Definition round (x : Q) : Z := Qfloor (x + (1 # 2)).

(** "clamped to [0,255]" *)
Definition clamp255 (z : Z) : Z := Z.max 0 (Z.min 255 z).

(** "channel = round(lo.channel + t * (hi.channel - lo.channel)),
    clamped to [0,255]" *)
Definition channel (lo hi : Z) (t : Q) : Z :=
  clamp255 (round (inject_Z lo + t * (inject_Z hi - inject_Z lo))%Q).

(** "t = (p - lo.position) / (hi.position - lo.position)", each of the
    three channels independently. *)
Definition interpolate (lo hi : ColorStop) (p : Q) : Z :=
  let t := ((p - pos lo) / (pos hi - pos lo))%Q in
  qRgb (channel (qRed (rgb lo)) (qRed (rgb hi)) t)
       (channel (qGreen (rgb lo)) (qGreen (rgb hi)) t)
       (channel (qBlue (rgb lo)) (qBlue (rgb hi)) t).

(** "locate the two stops (lo, hi) such that lo.position <= p <=
    hi.position (adjacent in sorted order); if p equals a stop's position
    exactly, return that stop's color without interpolation";
    [p] is above [lo] here. *)
Fixpoint locate (lo : ColorStop) (rest : t) (p : Q) : Z :=
  match rest with
  | [] => rgb lo
  | hi :: rest' =>
      match Qcompare p (pos hi) with
      | Eq => rgb hi
      | Lt => interpolate lo hi p
      | Gt => locate hi rest' p
      end
  end.

(** Modelled from the spec: the imported sampling method, the "Gradient
    Sampler"; "p is clamped to [0,1]", "p below the first or above the
    last stop position is clamped to the corresponding boundary stop's
    color". *)
Definition sample (g : t) (p : Q) : Z :=
  let p := clamp01 p in
  match g with
  | [] => 0
  | s0 :: rest => if Qle_bool p (pos s0) then rgb s0 else locate s0 rest p
  end.

(** Positions strictly ascending. *)
Fixpoint ascending (g : t) : bool :=
  match g with
  | a :: g' =>
      match g' with
      | b :: _ => Qltb (pos a) (pos b) && ascending g'
      | [] => true
      end
  | [] => true
  end.

Definition first_pos (g : t) : Q := pos (hd (mkStop (-1) 0) g).
Definition last_pos (g : t) : Q := pos (last g (mkStop (-1) 0)).

(** "Gradient must have >= 2 stops, sorted ascending by position, first
    stop position = 0.0, last = 1.0". *)
Definition valid (g : t) : bool :=
  ascending g && Qeq_bool (first_pos g) 0 && Qeq_bool (last_pos g) 1.



(** A position that [f"{pos:.6f}"] keeps. *)
Definition six_decimals (g : t) : Prop :=
  Forall (fun s => fmt6 (pos s) = pos s) g.

(** A stop with its colour made opaque, as [QColor(stop.rgb).rgb()]. *)
Definition opaque (s : ColorStop) : ColorStop :=
  mkStop (pos s) (QColor_rgb (QColor_of_rgb (rgb s))).

End Gradient.

#[export] Instance GradientLib : ColormapLib := {|
  Colormap := Gradient.t;
  EditableColormap := Gradient.make;
  addColorStop := Gradient.AddStop;
  colorStops := fun g => g;
  cm_rgb := Gradient.sample;
  add_handle_at_relative_pos :=
    fun g p c => Gradient.AddStop g p (QColor_rgb c);
  edit_color_stop := Gradient.EditStopColor
|}.

(* ------------------------------------------------------------------ *)
(** ** The editor session *)

(** The operations of a session: the handlers of the window, and the
    removal of a stop, which the widget offers itself. *)
Inductive SessionOp : Type :=
| OpAddStop (dialog : AddStopInput)
| OpEditColor (row column : Z) (new_color : option QColor)
| OpEditHandle (handle_index : Z) (new_color : option QColor)
| OpRemoveStop (index : Z)
| OpSave (filename : string) (opened : PyResult unit)
| OpLoad (filename : string) (imported : PyResult (@PyModule GradientLib)).

(** Modelled from the spec: the widget's own "remove stop" action, which
    [main.py] only listens to ([HANDLE_DELETED] triggers
    [update_tables]). *)
Definition remove_stop (self : @App GradientLib) (index : Z)
  : @Outcome GradientLib :=
  match Gradient.RemoveStop (colormap self) index with
  | Ok g => returns (update_tables (set_colormap self g))
  | Raise e => escapes self e
  end.

Definition step (self : @App GradientLib) (op : SessionOp)
  : @Outcome GradientLib :=
  match op with
  | OpAddStop dialog => add_new_color_stop self dialog
  | OpEditColor row column c => edit_color self row column c
  | OpEditHandle i c => edit_selected_handle_color self i c
  | OpRemoveStop i => remove_stop self i
  | OpSave filename opened => save_colormap self filename opened
  | OpLoad filename imported => load_colormap self filename imported
  end.

(** What the operations are given in the amended claim.  The spin box
    of the dialog has the range [0, 1], and the position is free.  A file
    read holds positions within [0, 1] ("stop positions (floats in
    [0,1])"): in the [addColorStop] calls of its constructor, which
    builds the gradient as a saved file does, or else in
    [color_positions]. *)
Definition in_unit_interval (p : Q) : bool := Qle_bool 0 p && Qle_bool p 1.





(** The three channels of a [QRgb]. *)
Definition channels (c : Z) : list Z := [qRed c; qGreen c; qBlue c].

(** The colormap rebuilt from parallel arrays as the specification words
    it: boundary stops from the first and last colour, then every
    intermediate (position, colour) pair in order. *)
Definition triple_color (c : Q * Q * Q) : QColor :=
  let '(r, g, b) := c in fromRgbF r g b.

Definition rebuild_spec {L : ColormapLib}
    (first_color last_color : Q * Q * Q)
    (intermediate : list (Q * (Q * Q * Q))) : PyResult Colormap :=
  for_each intermediate
    (fun '(p, c) cm => addColorStop cm p (QColor_rgb (triple_color c)))
    (EditableColormap (triple_color first_color) (triple_color last_color)).

Definition triple_list (c : Q * Q * Q) : list Q :=
  let '(r, g, b) := c in [r; g; b].

(** A gradient that has a stop exact only to ten binary digits. *)
Definition binary_gradient : Gradient.t :=
  [mkStop 0 (qRgb 0 0 0); mkStop (129 # 1024) (qRgb 255 0 0);
   mkStop 1 (qRgb 255 255 255)].

(** A gradient with one inner stop, red at a quarter. *)
Definition quarter_gradient : Gradient.t :=
  [mkStop 0 (qRgb 0 0 0); mkStop (1 # 4) (qRgb 255 0 0);
   mkStop 1 (qRgb 255 255 255)].

(** Black to white. *)
Definition grey_gradient : Gradient.t :=
  [mkStop 0 (qRgb 0 0 0); mkStop 1 (qRgb 255 255 255)].

(** [app.num_colors = n], as the tests do before saving. *)
Definition set_num_colors {L : ColormapLib} (self : App) (n : Z) : App :=
  mkApp (colormap self) (stops_table self) (rgb_preview self) (Some n).

(** Same positions, same colours on 8 bits per channel. *)
Definition same_stops (g g' : Gradient.t) : Prop :=
  Forall2 (fun s s' =>
             (pos s' == pos s)%Q /\ channels (rgb s') = channels (rgb s))
          g g'.

(** The round trip as the specification states it: the saved file
    decodes to a gradient with the same stops, and sampling that
    gradient at the saved positions gives the saved colours. *)
Definition roundtrip (g : Gradient.t) : Prop :=
  exists file g',
    write_colormap g = Ok file /\
    load_module (Ok (exec_file file)) = Ok g' /\
    same_stops g g' /\
    map (fun p => channels (Gradient.sample g' p)) saved_positions
      = sf_rgb_array file.

(** The colour of a stop as [save_colormap] writes it in [rgb_colors]:
    each channel divided by 255, on six decimals. *)
Definition saved_triple (stop : ColorStop) : Q * Q * Q :=
  let color := QColor_of_rgb (rgb stop) in
  (fmt6 (py_div (inject_Z (red color)) 255),
   fmt6 (py_div (inject_Z (green color)) 255),
   fmt6 (py_div (inject_Z (blue color)) 255)).

(** A stop as a saved file holds it: the position on six decimals, the
    colour opaque. *)
Definition rounded_stop (s : ColorStop) : ColorStop :=
  mkStop (fmt6 (pos s)) (QColor_rgb (QColor_of_rgb (rgb s))).

(** [y] is within half a unit of the sixth decimal of [x]. *)
Definition within_half_millionth (x y : Q) : Prop :=
  (x - (1 # 2000000) <= y /\ y <= x + (1 # 2000000))%Q.

(** A channel value of a [QColor]. *)
Definition is_byte (z : Z) : Prop := 0 <= z <= 255.

(* ------------------------------------------------------------------ *)
(** * Properties *)

(** ** Colour channels *)

Lemma land_255_mod x : Z.land x 255 = x mod 256.
Proof. apply (Z.land_ones x 8); lia. Qed.

Lemma land_255_range x : 0 <= Z.land x 255 <= 255.
Proof.
  rewrite land_255_mod.
  pose proof (Z.mod_pos_bound x 256 ltac:(lia)). lia.
Qed.

Lemma land_255_small x : 0 <= x <= 255 -> Z.land x 255 = x.
Proof. intros H. rewrite land_255_mod. apply Z.mod_small. lia. Qed.

Lemma land_255_idem x : Z.land (Z.land x 255) 255 = Z.land x 255.
Proof. rewrite <- Z.land_assoc. reflexivity. Qed.

Lemma testbit_255 n : Z.testbit 255 n = (0 <=? n) && (n <? 8).
Proof.
  destruct (Z.leb_spec 0 n); simpl.
  - change 255 with (Z.ones 8). destruct (Z.ltb_spec n 8).
    + apply Z.ones_spec_low. lia.
    + apply Z.ones_spec_high. lia.
  - apply Z.testbit_neg_r. lia.
Qed.

Ltac bytes :=
  apply Z.bits_inj'; intros n Hn;
  repeat first
    [ rewrite Z.land_spec | rewrite Z.lor_spec
    | rewrite Z.shiftr_spec by lia | rewrite Z.shiftl_spec by lia ];
  rewrite ?testbit_255;
  repeat match goal with
    | |- context [?a <? ?b] => destruct (Z.ltb_spec a b); try lia
    | |- context [?a <=? ?b] => destruct (Z.leb_spec a b); try lia
    end;
  cbn [andb orb]; rewrite ?andb_false_r, ?andb_true_r, ?orb_false_r;
  cbn [andb orb];
  try reflexivity; try (f_equal; lia).

Lemma qRed_qRgb r g b : qRed (qRgb r g b) = Z.land r 255.
Proof. unfold qRed, qRgb. bytes. Qed.

Lemma qGreen_qRgb r g b : qGreen (qRgb r g b) = Z.land g 255.
Proof. unfold qGreen, qRgb. bytes. Qed.

Lemma qBlue_qRgb r g b : qBlue (qRgb r g b) = Z.land b 255.
Proof. unfold qBlue, qRgb. bytes. Qed.

Lemma qRgb_masks r g b :
  qRgb (Z.land r 255) (Z.land g 255) (Z.land b 255) = qRgb r g b.
Proof. unfold qRgb. rewrite !land_255_idem. reflexivity. Qed.

Lemma channels_qRgb r g b :
  0 <= r <= 255 -> 0 <= g <= 255 -> 0 <= b <= 255 ->
  channels (qRgb r g b) = [r; g; b].
Proof.
  intros Hr Hg Hb. unfold channels.
  rewrite qRed_qRgb, qGreen_qRgb, qBlue_qRgb, !land_255_small by assumption.
  reflexivity.
Qed.

(** [QColor(c).rgb()] keeps the three channels of [c]. *)
Lemma channels_opaque c : channels (QColor_rgb (QColor_of_rgb c)) = channels c.
Proof.
  unfold channels, QColor_rgb, QColor_of_rgb; cbn [red green blue].
  rewrite qRed_qRgb, qGreen_qRgb, qBlue_qRgb.
  unfold qRed, qGreen, qBlue. rewrite !land_255_idem. reflexivity.
Qed.

Lemma QColor_of_rgb_channels c c' :
  channels c = channels c' -> QColor_of_rgb c = QColor_of_rgb c'.
Proof.
  unfold channels, QColor_of_rgb. intros H. injection H as -> -> ->.
  reflexivity.
Qed.

Lemma QColor_of_rgb_opaque c :
  QColor_of_rgb (QColor_rgb (QColor_of_rgb c)) = QColor_of_rgb c.
Proof. apply QColor_of_rgb_channels, channels_opaque. Qed.

(* ------------------------------------------------------------------ *)
(** ** Loops and indexing *)

Lemma py_range_length lo hi :
  List.length (py_range lo hi) = Z.to_nat (hi - lo).
Proof. unfold py_range. rewrite length_map, length_seq. reflexivity. Qed.

Lemma py_range_nth lo hi (k : nat) :
  (k < Z.to_nat (hi - lo))%nat ->
  nth_error (py_range lo hi) k = Some (lo + Z.of_nat k).
Proof.
  intros Hk. unfold py_range.
  rewrite nth_error_map, nth_error_seq.
  destruct (Nat.ltb_spec k (Z.to_nat (hi - lo))); [reflexivity | lia].
Qed.

Lemma py_range_In lo hi i : In i (py_range lo hi) -> lo <= i < hi.
Proof.
  unfold py_range. rewrite in_map_iff. intros (k & <- & Hk).
  apply in_seq in Hk. lia.
Qed.

Lemma for_each_ext {A St} (l : list A) (f g : A -> St -> PyResult St) s :
  (forall a s', In a l -> f a s' = g a s') ->
  for_each l f s = for_each l g s.
Proof.
  revert s. induction l as [|a l IH]; intros s H; cbn [for_each].
  - reflexivity.
  - rewrite (H a s (or_introl eq_refl)). destruct (g a s); cbn [bind].
    + apply IH. intros; apply H; right; assumption.
    + reflexivity.
Qed.

Lemma for_each_map {A B St} (h : A -> B) (l : list A)
    (f : B -> St -> PyResult St) s :
  for_each (map h l) f s = for_each l (fun a => f (h a)) s.
Proof.
  revert s. induction l as [|a l IH]; intros s; cbn [for_each map].
  - reflexivity.
  - destruct (f (h a) s); cbn [bind]; auto.
Qed.

(** A loop over indices is a loop over the elements they name. *)
Lemma for_each_seq {A St} (l : list A) (off : nat)
    (f : nat -> St -> PyResult St) (g : A -> St -> PyResult St) s :
  (forall k a s', nth_error l k = Some a -> f (off + k)%nat s' = g a s') ->
  for_each (seq off (List.length l)) f s = for_each l g s.
Proof.
  revert off s. induction l as [|a l IH]; intros off s H.
  - reflexivity.
  - cbn [List.length seq for_each].
    rewrite <- (H 0%nat a s eq_refl), Nat.add_0_r.
    destruct (f off s); cbn [bind]; [|reflexivity].
    apply IH. intros k b s' Hk.
    rewrite <- (H (S k) b s' Hk). f_equal. lia.
Qed.

(** An invariant of a loop that ends normally. *)
Lemma for_each_inv {A St} (P : St -> Prop) (l : list A)
    (f : A -> St -> PyResult St) s s' :
  (forall a x y, In a l -> P x -> f a x = Ok y -> P y) ->
  P s -> for_each l f s = Ok s' -> P s'.
Proof.
  revert s. induction l as [|a l IH]; intros s Hf Hs; cbn [for_each].
  - intros [= <-]. assumption.
  - destruct (f a s) as [y|e] eqn:E; cbn [bind]; [|discriminate].
    apply IH.
    + intros; eapply Hf; eauto. right; assumption.
    + eapply Hf; eauto. left; reflexivity.
Qed.

Lemma py_index_nth {A} (l : list A) (k : nat) a :
  nth_error l k = Some a -> py_index l (Z.of_nat k) = Ok a.
Proof.
  intros H. unfold py_index.
  assert (Hk : (k < List.length l)%nat) by (apply nth_error_Some; congruence).
  destruct (Z.ltb_spec (Z.of_nat k) 0); [lia|].
  destruct (Z.ltb_spec (Z.of_nat k) 0); [lia|].
  destruct (Z.leb_spec (Z.of_nat (List.length l)) (Z.of_nat k)); [lia|].
  cbn [orb]. rewrite Nat2Z.id, H. reflexivity.
Qed.

Lemma py_index_last {A} (l : list A) a : py_index (l ++ [a]) (-1) = Ok a.
Proof.
  unfold py_index. rewrite length_app. cbn [List.length].
  change (-1 <? 0) with true. cbv iota.
  set (n := Z.of_nat (List.length l + 1)).
  assert (Hn : -1 + n = Z.of_nat (List.length l)) by lia.
  rewrite Hn.
  destruct (Z.ltb_spec (Z.of_nat (List.length l)) 0); [lia|].
  destruct (Z.leb_spec n (Z.of_nat (List.length l))); [lia|].
  cbn [orb]. rewrite Nat2Z.id, nth_error_app2, Nat.sub_diag by lia.
  reflexivity.
Qed.


Lemma py_index_nonempty {A} (l : list A) a l' :
  l = a :: l' ->
  py_index l 0 = Ok a /\ exists z, py_index l (-1) = Ok z /\ z = last l a.
Proof.
  intros ->. split; [reflexivity|].
  destruct (exists_last (l := a :: l') ltac:(discriminate)) as (m & z & E).
  exists z. rewrite E, py_index_last, last_last. auto.
Qed.

(* ------------------------------------------------------------------ *)
(** ** Saving and loading, for every gradient library *)

Section Handlers.

Context {L : ColormapLib}.

Lemma colormap_update_tables (self : App) :
  colormap (update_tables self) = colormap self.
Proof. reflexivity. Qed.

Lemma nth_error_middle {A} (a z : A) (mid : list A) (k : nat) x :
  nth_error mid k = Some x -> nth_error (a :: mid ++ [z]) (S k) = Some x.
Proof.
  intros H. cbn [nth_error]. rewrite nth_error_app1; [assumption|].
  apply nth_error_Some. congruence.
Qed.

Lemma color_at_first c cs :
  color_at (triple_list c :: cs) 0 = Ok (triple_color c).
Proof. destruct c as [[r g] b]. reflexivity. Qed.

Lemma color_at_last c cs :
  color_at (cs ++ [triple_list c]) (-1) = Ok (triple_color c).
Proof.
  unfold color_at. rewrite py_index_last. destruct c as [[r g] b].
  reflexivity.
Qed.

(** The index loop of [load_colormap] on parallel arrays is the fold of
    [rebuild_spec] over the intermediate pairs. *)
Lemma colormap_from_arrays_parallel p0 pN c0 cN
    (mid : list (Q * (Q * Q * Q))) :
  colormap_from_arrays (p0 :: map fst mid ++ [pN])
                       (map triple_list (c0 :: map snd mid ++ [cN]))
  = rebuild_spec c0 cN mid.
Proof.
  unfold colormap_from_arrays, rebuild_spec.
  cbn [map]. rewrite color_at_first. cbn [bind].
  rewrite map_app. cbn [map].
  rewrite (app_comm_cons _ _ (triple_list c0)), color_at_last. cbn [bind].
  set (ps := p0 :: map fst mid ++ [pN]).
  set (cs := (triple_list c0 :: map triple_list (map snd mid))
               ++ [triple_list cN]).
  unfold py_range. rewrite for_each_map.
  assert (Hlen : Z.to_nat (Z.of_nat (List.length ps) - 1 - 1)
                 = List.length mid).
  { subst ps. cbn [List.length].
    rewrite length_app, length_map. cbn [List.length]. lia. }
  rewrite Hlen.
  apply for_each_seq. intros k [p c] s' Hk.
  replace (1 + Z.of_nat (0 + k)) with (Z.of_nat (S k)) by lia.
  rewrite (py_index_nth ps (S k) p).
  2:{ subst ps. apply nth_error_middle.
      rewrite nth_error_map, Hk. reflexivity. }
  rewrite (py_index_nth cs (S k) (triple_list c)).
  2:{ subst cs. rewrite <- app_comm_cons. apply nth_error_middle.
      rewrite !nth_error_map, Hk. reflexivity. }
  destruct c as [[r g] b]. reflexivity.
Qed.

(** Only the positions strictly inside the array are read. *)
Lemma colormap_from_arrays_inner (ps ps' : list Q) cs :
  List.length ps = List.length ps' ->
  (forall k, (0 < k)%nat -> (S k < List.length ps)%nat ->
             nth_error ps k = nth_error ps' k) ->
  colormap_from_arrays ps cs = colormap_from_arrays ps' cs.
Proof.
  intros Hlen Hnth. unfold colormap_from_arrays.
  destruct (color_at cs 0); cbn [bind]; [|reflexivity].
  destruct (color_at cs (-1)); cbn [bind]; [|reflexivity].
  rewrite <- Hlen. apply for_each_ext. intros i cm Hi.
  apply py_range_In in Hi.
  assert (E : py_index ps i = py_index ps' i).
  { unfold py_index. rewrite <- Hlen.
    destruct (Z.ltb_spec i 0); [lia|].
    destruct (_ || _); [reflexivity|].
    rewrite (Hnth (Z.to_nat i)) by lia. reflexivity. }
  rewrite E. reflexivity.
Qed.

(** C3.  [load_colormap] takes a file in one of two shapes.  A module
    with [create_colormap] gives what that function returns.  Without
    it, a module with parallel [color_positions] and [rgb_colors] gives
    the gradient built from the first and the last colour, to which every
    intermediate (position, colour) pair is added in order.  A module
    with neither (one array missing is enough) fails: the window keeps
    its colormap and shows the error "File does not contain valid
    colormap data". *)
Theorem load_accepts_two_shapes :
  (forall create ps cs gra gp,
      load_module (Ok (mkModule (Some create) ps cs gra gp)) = create tt)
  /\ (forall p0 pN c0 cN mid gra gp,
      load_module
        (Ok (mkModule None
               (Some (p0 :: map fst mid ++ [pN]))
               (Some (map triple_list (c0 :: map snd mid ++ [cN])))
               gra gp))
      = rebuild_spec c0 cN mid)
  /\ (forall ps cs gra gp a name self,
      let failed :=
        mkOutcome self
          [Critical "Error Loading Colormap"
             ("Failed to load colormap from file:" ++ newline
              ++ "File does not contain valid colormap data")]
          None None in
      load_colormap self (String a name) (Ok (mkModule None None cs gra gp))
        = failed
      /\ load_colormap self (String a name)
           (Ok (mkModule None ps None gra gp)) = failed).
Proof.
  split; [|split].
  - reflexivity.
  - intros. cbn [load_module bind m_create_colormap m_color_positions
                 m_rgb_colors].
    apply colormap_from_arrays_parallel.
  - intros. split.
    + reflexivity.
    + destruct ps; reflexivity.
Qed.

(** C9.  When the module has [create_colormap], the arrays
    [color_positions] and [rgb_colors] play no part: the outcome of
    [load_colormap] is the same whatever they hold, or without them. *)
Theorem constructor_takes_precedence :
  forall self filename create ps cs ps' cs' gra gp,
    load_colormap self filename (Ok (mkModule (Some create) ps cs gra gp))
    = load_colormap self filename
        (Ok (mkModule (Some create) ps' cs' gra gp))
    /\ load_module (Ok (mkModule (Some create) ps cs gra gp)) = create tt.
Proof. intros. split; reflexivity. Qed.

(** C8 (the code departs from it).  A file that cannot be read is
    reported by [load_colormap] in a message box with the text of the
    error, and the window is unchanged.  A file that cannot be written
    is not reported by [save_colormap]: the error leaves the handler
    uncaught and no message box is shown. *)
Theorem io_failure_reported_by_load_only :
  forall self a name e,
    load_colormap self (String a name) (Raise e)
    = mkOutcome self
        [Critical "Error Loading Colormap"
           ("Failed to load colormap from file:" ++ newline ++ str_exc e)]
        None None
    /\ save_colormap self (String a name) (Raise e)
       = mkOutcome self [] (Some e) None.
Proof. intros. split; reflexivity. Qed.

(** C5 (the code departs from it).  [add_new_color_stop] collects the
    occupied positions and never looks at them: it shows no message, and
    for a position that a stop already has it calls the widget as for
    any other. *)
Theorem add_stop_ignores_occupied_positions :
  (forall self dialog, dialogs (add_new_color_stop self dialog) = [])
  /\ (forall self s color,
         In s (colorStops (colormap self)) ->
         add_new_color_stop self
           (mkAddStop true (pos s) ChooseColor (Some color))
         = match add_handle_at_relative_pos (colormap self) (pos s) color
           with
           | Ok cm => returns (update_tables (set_colormap self cm))
           | Raise e => escapes self e
           end).
Proof.
  split.
  - intros self [acc p m c]. unfold add_new_color_stop.
    cbn [dialog_accepted spinner_value color_method picked_color].
    destruct acc; [|reflexivity].
    destruct m, c; try reflexivity;
      destruct (add_handle_at_relative_pos _ _ _); reflexivity.
  - intros. reflexivity.
Qed.

Lemma write_colormap_arrays cm file :
  write_colormap cm = Ok file ->
  sf_rgb_array file
  = map (fun p => channels (cm_rgb cm p)) saved_positions
  /\ List.length (sf_positions file) = 512%nat.
Proof.
  unfold write_colormap.
  destruct (py_index (colorStops cm) 0); cbn [bind]; [|discriminate].
  destruct (py_index (colorStops cm) (-1)); cbn [bind]; [|discriminate].
  intros [= <-]. cbn [sf_rgb_array sf_positions]. split.
  - reflexivity.
  - vm_compute. reflexivity.
Qed.

Lemma saved_positions_length : List.length saved_positions = 512%nat.
Proof. reflexivity. Qed.

(** C2 (the code departs from it).  The function [get_rgb_array] of a
    saved file has no parameter.  Called without argument it returns the
    512 stored samples, whatever [num_colors] was; called with a count
    it raises [TypeError]. *)
Theorem saved_accessor_has_no_count :
  forall self n file M,
    write_colormap (colormap (set_num_colors self n)) = Ok file ->
    exists get_rgb_array,
      m_get_rgb_array (exec_file file) = Some get_rgb_array
      /\ get_rgb_array [] = Ok (sf_rgb_array file)
      /\ List.length (sf_rgb_array file) = 512%nat
      /\ exists msg, get_rgb_array [M] = Raise (mkExc TypeError msg).
Proof.
  intros self n file M H. apply write_colormap_arrays in H as [H _].
  eexists. split; [reflexivity|]. split; [reflexivity|]. split.
  - rewrite H, length_map. reflexivity.
  - eexists. reflexivity.
Qed.

(** C4 (the code departs from it).  The number of samples is the
    constant 512 in [update_tables] and in [save_colormap]; setting
    [num_colors] changes neither.  The 512 positions are [i / 511], from
    0 to 1. *)
Theorem sample_count_is_always_512 :
  forall self n,
    List.length (rgb_preview (update_tables (set_num_colors self n)))
      = 512%nat
    /\ (forall file,
          write_colormap (colormap (set_num_colors self n)) = Ok file ->
          List.length (sf_rgb_array file) = 512%nat
          /\ List.length (sf_positions file) = 512%nat)
    /\ (forall i, 0 <= i < 512 ->
          nth_error saved_positions (Z.to_nat i)
          = Some (py_div (inject_Z i) 511))
    /\ nth_error saved_positions 0 = Some 0%Q
    /\ nth_error saved_positions 511 = Some 1%Q.
Proof.
  intros self n. split; [|split; [|split; [|split]]].
  - unfold update_tables. cbn [rgb_preview].
    rewrite length_map, py_range_length. reflexivity.
  - intros file H. apply write_colormap_arrays in H as [H1 H2].
    rewrite H1, length_map. auto.
  - intros i Hi. unfold saved_positions.
    rewrite nth_error_map, py_range_nth by lia.
    cbn [option_map]. rewrite Z2Nat.id by lia. reflexivity.
  - reflexivity.
  - vm_compute. reflexivity.
Qed.

End Handlers.

(* ------------------------------------------------------------------ *)
(** ** The gradient of the specification: order and sampling *)

Module GradientFacts.
Import Gradient.

Local Open Scope Q_scope.

Lemma Qltb_lt a b : Qltb a b = true <-> a < b.
Proof.
  unfold Qltb. rewrite negb_true_iff. split.
  - intros H. apply Qnot_le_lt. intros Hle.
    apply Qle_bool_iff in Hle. congruence.
  - intros H. destruct (Qle_bool b a) eqn:E; [|reflexivity].
    apply Qle_bool_iff in E. apply Qlt_not_le in H. contradiction.
Qed.

Lemma Qle_bool_false a b : Qle_bool a b = false <-> b < a.
Proof.
  rewrite <- Qltb_lt. unfold Qltb. rewrite negb_true_iff. reflexivity.
Qed.

Lemma Qeq_bool_false a b : Qeq_bool a b = false <-> ~ a == b.
Proof.
  split.
  - apply Qeq_bool_neq.
  - intros H. destruct (Qeq_bool a b) eqn:E; [|reflexivity].
    apply Qeq_bool_iff in E. contradiction.
Qed.

Lemma Qcompare_Lt p q : p < q -> Qcompare p q = Lt.
Proof. apply Qlt_alt. Qed.

Lemma Qcompare_Gt p q : q < p -> Qcompare p q = Gt.
Proof. apply Qgt_alt. Qed.

Lemma Qcompare_Eq p q : p == q -> Qcompare p q = Eq.
Proof. apply Qeq_alt. Qed.

(** Boolean tests on rationals, read as propositions. *)
Ltac qprop :=
  repeat match goal with
    | H : Qltb _ _ = true |- _ => apply Qltb_lt in H
    | H : Qle_bool _ _ = true |- _ => apply Qle_bool_iff in H
    | H : Qle_bool _ _ = false |- _ => apply Qle_bool_false in H
    | H : Qeq_bool _ _ = true |- _ => apply Qeq_bool_iff in H
    | H : Qeq_bool _ _ = false |- _ => apply Qeq_bool_false in H
    | H : _ && _ = true |- _ => apply andb_prop in H; destruct H
    | |- Qltb _ _ = true => apply Qltb_lt
    | |- Qle_bool _ _ = true => apply Qle_bool_iff
    | |- Qle_bool _ _ = false => apply Qle_bool_false
    | |- Qeq_bool _ _ = true => apply Qeq_bool_iff
    | |- Qeq_bool _ _ = false => apply Qeq_bool_false
    end.

Lemma clamp01_inside x : 0 < x -> x < 1 -> clamp01 x = x.
Proof.
  intros H0 H1. unfold clamp01.
  destruct (Qle_bool x 0) eqn:E0; [qprop; lra|].
  destruct (Qle_bool 1 x) eqn:E1; [qprop; lra|]. reflexivity.
Qed.

Lemma clamp01_eq x : 0 <= x -> x <= 1 -> clamp01 x == x.
Proof.
  intros H0 H1. unfold clamp01.
  destruct (Qle_bool x 0) eqn:E0; [qprop; lra|].
  destruct (Qle_bool 1 x) eqn:E1; [qprop; lra|]. reflexivity.
Qed.

(** *** Ascending lists of stops *)

Lemma ascending_cons x l :
  ascending (x :: l) = true <->
  ascending l = true /\ (forall y l', l = y :: l' -> pos x < pos y).
Proof.
  destruct l as [|y l'].
  - split; [intros _; split; [reflexivity | discriminate] | reflexivity].
  - change (ascending (x :: y :: l'))
      with (Qltb (pos x) (pos y) && ascending (y :: l'))%bool.
    rewrite andb_true_iff, Qltb_lt. split.
    + intros [H1 H2]. split; [assumption|]. intros ? ? [= <- <-].
      assumption.
    + intros [H1 H2]. split; [eapply H2; reflexivity | assumption].
Qed.

Lemma ascending_tl x l : ascending (x :: l) = true -> ascending l = true.
Proof. intros H. apply ascending_cons in H. tauto. Qed.

Lemma ascending_above x l :
  ascending (x :: l) = true -> forall y, In y l -> pos x < pos y.
Proof.
  revert x. induction l as [|a l IH]; intros x H y Hy; [contradiction|].
  apply ascending_cons in H as [Hl Hx].
  specialize (Hx a l eq_refl).
  destruct Hy as [<- | Hy]; [assumption|].
  specialize (IH a Hl y Hy). lra.
Qed.

Lemma ascending_app l1 x l2 :
  ascending (l1 ++ x :: l2) = true ->
  (forall a, In a l1 -> pos a < pos x) /\ ascending (x :: l2) = true.
Proof.
  induction l1 as [|a l1 IH]; cbn [app]; intros H.
  - split; [contradiction | assumption].
  - pose proof (ascending_above _ _ H x) as Hax.
    apply ascending_tl in H. destruct (IH H) as [H1 H2].
    split; [|assumption]. intros b [<- | Hb].
    + apply Hax. apply in_or_app. right. left. reflexivity.
    + auto.
Qed.

Lemma ascending_below_last l d :
  ascending l = true -> forall s, In s l -> pos s <= pos (last l d).
Proof.
  induction l as [|a l IH]; intros H s Hs; [contradiction|].
  destruct l as [|b l].
  - destruct Hs as [<- | []]. cbn. lra.
  - change (last (a :: b :: l) d) with (last (b :: l) d).
    pose proof (ascending_tl _ _ H) as Ht.
    destruct Hs as [<- | Hs].
    + pose proof (ascending_above _ _ H b (or_introl eq_refl)).
      specialize (IH Ht b (or_introl eq_refl)). lra.
    + apply IH; assumption.
Qed.

Lemma valid_parts g :
  valid g = true ->
  ascending g = true /\ first_pos g == 0 /\ last_pos g == 1.
Proof. unfold valid. intros H. qprop. auto. Qed.

Lemma valid_shape g :
  valid g = true ->
  exists s0 mid sN, g = s0 :: mid ++ [sN] /\ pos s0 == 0 /\ pos sN == 1.
Proof.
  intros H. apply valid_parts in H as (Ha & H0 & H1).
  unfold first_pos, last_pos in *.
  destruct g as [|s0 rest]; [cbn [hd pos] in H0; lra|].
  destruct rest as [|b rest].
  - cbn [hd last] in H0, H1. lra.
  - destruct (exists_last (l := b :: rest) ltac:(discriminate))
      as (mid & sN & E).
    exists s0, mid, sN. rewrite E. split; [reflexivity|].
    split; [exact H0|].
    rewrite E, app_comm_cons, last_last in H1. exact H1.
Qed.

Lemma valid_bounds g s : valid g = true -> In s g -> 0 <= pos s <= 1.
Proof.
  intros H Hs. apply valid_parts in H as (Ha & H0 & H1).
  pose proof (ascending_below_last g (mkStop (-1) 0) Ha s Hs) as Hl.
  fold (last_pos g) in Hl. split; [|lra].
  destruct g as [|s0 rest]; [contradiction|].
  unfold first_pos in H0. cbn [hd] in H0. destruct Hs as [<- | Hs]; [lra|].
  pose proof (ascending_above _ _ Ha s Hs). lra.
Qed.

(** *** The sampler *)

Lemma last_default {A} (l : list A) a d d' :
  last (a :: l) d = last (a :: l) d'.
Proof.
  revert a. induction l as [|b l IH]; intros a; [reflexivity|].
  change (last (b :: l) d = last (b :: l) d'). apply IH.
Qed.

Lemma locate_between (hi : ColorStop) l2 p l1 :
  forall s0,
    Forall (fun a => pos a < p) (s0 :: l1) -> p < pos hi ->
    locate s0 (l1 ++ hi :: l2) p = interpolate (last (s0 :: l1) s0) hi p.
Proof.
  induction l1 as [|x l1 IH]; intros s0 Hall Hp.
  - cbn [app locate last].
    rewrite (Qcompare_Lt _ _ Hp). reflexivity.
  - inversion Hall as [|? ? Hs0 Hrest]; subst.
    inversion Hrest as [|? ? Hx _]; subst.
    cbn [app locate]. rewrite (Qcompare_Gt _ _ Hx).
    rewrite (IH x Hrest Hp).
    change (last (s0 :: x :: l1) s0) with (last (x :: l1) s0).
    rewrite (last_default l1 x x s0). reflexivity.
Qed.

Lemma sample_between g l1 lo hi l2 p :
  valid g = true -> g = l1 ++ lo :: hi :: l2 ->
  pos lo < p -> p < pos hi ->
  sample g p = interpolate lo hi p.
Proof.
  intros Hv E Hlo Hhi.
  assert (Blo : 0 <= pos lo <= 1).
  { apply (valid_bounds g); [assumption|]. rewrite E.
    apply in_or_app. right. left. reflexivity. }
  assert (Bhi : 0 <= pos hi <= 1).
  { apply (valid_bounds g); [assumption|]. rewrite E.
    apply in_or_app. right. right. left. reflexivity. }
  apply valid_parts in Hv as (Ha & _ & _). rewrite E in Ha.
  destruct (ascending_app _ _ _ Ha) as [Hl1 _].
  unfold sample. rewrite clamp01_inside by lra. subst g.
  destruct l1 as [|a l1].
  - cbn [app]. replace (Qle_bool p (pos lo)) with false
      by (symmetry; qprop; lra).
    cbn [locate]. rewrite (Qcompare_Lt _ _ Hhi). reflexivity.
  - cbn [app]. replace (Qle_bool p (pos a)) with false.
    2:{ symmetry. qprop. specialize (Hl1 a (or_introl eq_refl)). lra. }
    change (l1 ++ lo :: hi :: l2) with (l1 ++ [lo] ++ hi :: l2).
    rewrite app_assoc, (locate_between hi l2 p (l1 ++ [lo]) a).
    + rewrite app_comm_cons, last_last. reflexivity.
    + rewrite app_comm_cons. apply Forall_app. split.
      * apply Forall_forall. intros x Hx. specialize (Hl1 x Hx). lra.
      * constructor; [assumption | constructor].
    + assumption.
Qed.

Lemma locate_hit rest :
  forall s0 s p,
    ascending (s0 :: rest) = true -> In s rest -> p == pos s ->
    locate s0 rest p = rgb s.
Proof.
  induction rest as [|hi rest IH]; intros s0 s p Ha Hs Hp; [contradiction|].
  cbn [locate]. apply ascending_tl in Ha. destruct Hs as [<- | Hs].
  - rewrite (Qcompare_Eq _ _ Hp). reflexivity.
  - pose proof (ascending_above _ _ Ha s Hs) as Hlt.
    assert (Hgt : pos hi < p) by lra.
    rewrite (Qcompare_Gt _ _ Hgt). eapply IH; eauto.
Qed.

Lemma sample_hit g s :
  valid g = true -> In s g -> sample g (pos s) = rgb s.
Proof.
  intros Hv Hs. pose proof (valid_bounds g s Hv Hs) as B.
  apply valid_parts in Hv as (Ha & _ & _).
  pose proof (clamp01_eq (pos s) (proj1 B) (proj2 B)) as Hc.
  unfold sample. set (p := clamp01 (pos s)) in *.
  destruct g as [|s0 rest]; [contradiction|].
  destruct Hs as [<- | Hs].
  - replace (Qle_bool p (pos s0)) with true by (symmetry; qprop; lra).
    reflexivity.
  - pose proof (ascending_above _ _ Ha s Hs).
    replace (Qle_bool p (pos s0)) with false by (symmetry; qprop; lra).
    eapply locate_hit; eauto.
Qed.

Lemma clamp255_range z : (0 <= clamp255 z <= 255)%Z.
Proof. unfold clamp255. lia. Qed.

Lemma channels_interpolate lo hi p :
  channels (interpolate lo hi p)
  = (let t := (p - pos lo) / (pos hi - pos lo) in
     [channel (qRed (rgb lo)) (qRed (rgb hi)) t;
      channel (qGreen (rgb lo)) (qGreen (rgb hi)) t;
      channel (qBlue (rgb lo)) (qBlue (rgb hi)) t]).
Proof.
  unfold interpolate. apply channels_qRgb; apply clamp255_range.
Qed.

End GradientFacts.

(** C6.  For a valid gradient and a position [p] strictly between two
    adjacent stops [lo] and [hi], the sampler returns, for each channel
    on its own, [round(lo.channel + t * (hi.channel - lo.channel))]
    clamped to [0, 255], with
    [t = (p - lo.position) / (hi.position - lo.position)].  At the
    position of a stop it returns the colour of that stop.  Black to white
    sampled at 0.5 is (128, 128, 128). *)
Theorem sampler_interpolates_between_stops :
  forall g, Gradient.valid g = true ->
    (forall l1 lo hi l2 p,
        g = l1 ++ lo :: hi :: l2 -> (pos lo < p)%Q -> (p < pos hi)%Q ->
        let t := ((p - pos lo) / (pos hi - pos lo))%Q in
        let chan (c : Z -> Z) :=
          Gradient.clamp255
            (Gradient.round
               (inject_Z (c (rgb lo))
                + t * (inject_Z (c (rgb hi)) - inject_Z (c (rgb lo))))%Q) in
        Gradient.sample g p = qRgb (chan qRed) (chan qGreen) (chan qBlue)
        /\ channels (Gradient.sample g p)
           = [chan qRed; chan qGreen; chan qBlue])
    /\ (forall s, In s g -> Gradient.sample g (pos s) = rgb s)
    /\ channels (Gradient.sample grey_gradient (1 # 2)) = [128; 128; 128].
Proof.
  intros g Hv. split; [|split].
  - intros l1 lo hi l2 p E Hlo Hhi t chan.
    rewrite (GradientFacts.sample_between g l1 lo hi l2 p Hv E Hlo Hhi).
    split; [reflexivity|].
    apply GradientFacts.channels_interpolate.
  - intros s Hs. apply GradientFacts.sample_hit; assumption.
  - reflexivity.
Qed.

Lemma sampler_interpolates_between_stops_witness :
  Gradient.valid grey_gradient = true
  /\ (pos (mkStop 0 (qRgb 0 0 0)) < 1 # 2)%Q
  /\ (1 # 2 < pos (mkStop 1 (qRgb 255 255 255)))%Q
  /\ channels (Gradient.sample grey_gradient (1 # 2)) = [128; 128; 128].
Proof.
  split; [reflexivity|]. split; [reflexivity|]. split; [reflexivity|].
  exact (proj2 (proj1 (sampler_interpolates_between_stops
                         grey_gradient eq_refl)
                  [] _ _ [] (1 # 2) eq_refl eq_refl eq_refl)).
Defined.

(* ------------------------------------------------------------------ *)
(** ** Saving then loading a gradient *)

Module RoundTripFacts.
Import Gradient GradientFacts.

Local Open Scope Q_scope.

Lemma round_half_even_comp x y :
  x == y -> round_half_even x = round_half_even y.
Proof.
  intros E. unfold round_half_even.
  rewrite (Qfloor_comp x y E).
  assert (E' : x - inject_Z (Qfloor y) == y - inject_Z (Qfloor y))
    by (rewrite E; reflexivity).
  rewrite (Qcompare_comp _ _ E' (1 # 2) (1 # 2) (Qeq_refl _)).
  reflexivity.
Qed.

Lemma fmt6_comp x y : x == y -> fmt6 x = fmt6 y.
Proof.
  intros E. unfold fmt6.
  rewrite (round_half_even_comp (x * 1000000) (y * 1000000)).
  - reflexivity.
  - rewrite E. reflexivity.
Qed.

(** A position that the text keeps and that equals 0 or 1 is the very
    value the gradient constructor gives to a boundary stop. *)
Lemma six_decimals_zero x : fmt6 x = x -> x == 0 -> x = 0.
Proof. intros H E. rewrite <- H, (fmt6_comp x 0 E). reflexivity. Qed.

Lemma six_decimals_one x : fmt6 x = x -> x == 1 -> x = 1.
Proof. intros H E. rewrite <- H, (fmt6_comp x 1 E). reflexivity. Qed.

Lemma map_pos_opaque g : map pos (map opaque g) = map pos g.
Proof. rewrite map_map. reflexivity. Qed.

Lemma ascending_ext g :
  forall g', map pos g = map pos g' -> ascending g = ascending g'.
Proof.
  induction g as [|a g IH]; intros [|a' g'] E; try discriminate;
    [reflexivity|].
  cbn [map] in E. injection E as Ea Eg.
  destruct g as [|b g], g' as [|b' g']; try discriminate; [reflexivity|].
  change (Qltb (pos a) (pos b) && ascending (b :: g)
          = Qltb (pos a') (pos b') && ascending (b' :: g'))%bool.
  rewrite (IH (b' :: g') Eg).
  cbn [map] in Eg. injection Eg as Eb _. rewrite Ea, Eb. reflexivity.
Qed.

Lemma occupied_app l1 l2 p :
  occupied (l1 ++ l2) p = (occupied l1 p || occupied l2 p)%bool.
Proof. apply existsb_app. Qed.

Lemma occupied_none g p :
  (forall s, In s g -> ~ pos s == p) -> occupied g p = false.
Proof.
  induction g as [|a g IH]; intros H; [reflexivity|].
  cbn [occupied existsb]. apply orb_false_iff. split.
  - qprop. apply H. left. reflexivity.
  - apply IH. intros s Hs. apply H. right. assumption.
Qed.

Lemma insert_app l1 l2 s :
  (forall a, In a l1 -> pos a < pos s) ->
  insert s (l1 ++ l2) = l1 ++ insert s l2.
Proof.
  induction l1 as [|a l1 IH]; intros H; [reflexivity|].
  cbn [app insert].
  replace (Qle_bool (pos s) (pos a)) with false.
  - rewrite IH; [reflexivity|]. intros b Hb. apply H. right. assumption.
  - symmetry. qprop. apply H. left. reflexivity.
Qed.

(** Adding the inner stops in ascending order, between the two boundary
    stops, rebuilds the list. *)
Lemma build_sorted (mid : t) :
  forall pre sN,
    ascending (pre ++ mid ++ [sN]) = true ->
    for_each (map (fun s => (pos s, rgb s)) mid)
             (fun '(p, c) cm => AddStop cm p c) (pre ++ [sN])
    = Ok (pre ++ mid ++ [sN]).
Proof.
  induction mid as [|x mid IH]; intros pre sN Ha; [reflexivity|].
  cbn [map for_each app].
  destruct (ascending_app _ _ _ Ha) as [Hpre Hx].
  assert (HxN : pos x < pos sN).
  { apply (ascending_above _ _ Hx). apply in_or_app. right. left.
    reflexivity. }
  unfold AddStop at 1.
  rewrite occupied_none.
  2:{ intros s Hs. apply in_app_or in Hs as [Hs | [<- | []]].
      - specialize (Hpre s Hs). lra.
      - lra. }
  cbn [bind]. rewrite insert_app by assumption.
  cbn [insert pos].
  replace (Qle_bool (pos x) (pos sN)) with true by (symmetry; qprop; lra).
  replace (mkStop (pos x) (rgb x)) with x by (destruct x; reflexivity).
  change (pre ++ [x; sN]) with (pre ++ [x] ++ [sN]).
  rewrite app_assoc, IH.
  - rewrite <- app_assoc. reflexivity.
  - rewrite <- app_assoc. exact Ha.
Qed.

Lemma interpolate_opaque lo hi p :
  interpolate (opaque lo) (opaque hi) p = interpolate lo hi p.
Proof.
  pose proof (channels_opaque (rgb lo)) as Hlo.
  pose proof (channels_opaque (rgb hi)) as Hhi.
  unfold channels in Hlo, Hhi.
  injection Hlo as Hlr Hlg Hlb. injection Hhi as Hhr Hhg Hhb.
  unfold interpolate, opaque. cbn [pos rgb].
  rewrite Hlr, Hlg, Hlb, Hhr, Hhg, Hhb. reflexivity.
Qed.

Lemma channels_locate_opaque rest p :
  forall lo,
    channels (locate (opaque lo) (map opaque rest) p)
    = channels (locate lo rest p).
Proof.
  induction rest as [|hi rest IH]; intros lo; cbn [map locate].
  - apply channels_opaque.
  - change (pos (opaque hi)) with (pos hi).
    destruct (Qcompare p (pos hi)).
    + apply channels_opaque.
    + rewrite interpolate_opaque. reflexivity.
    + apply IH.
Qed.

(** Sampling sees only the three channels of the stops. *)
Lemma channels_sample_opaque g p :
  channels (sample (map opaque g) p) = channels (sample g p).
Proof.
  unfold sample. destruct g as [|s0 rest]; [reflexivity|].
  cbn [map]. change (pos (opaque s0)) with (pos s0).
  destruct (Qle_bool (clamp01 p) (pos s0)).
  - apply channels_opaque.
  - apply channels_locate_opaque.
Qed.

Lemma same_stops_opaque g : same_stops g (map opaque g).
Proof.
  induction g as [|s g IH]; constructor; [|assumption].
  split; [reflexivity | apply channels_opaque].
Qed.

(** What [save_colormap] writes for a valid gradient, and what
    [create_colormap] of that file returns. *)
Lemma write_then_create g :
  valid g = true -> six_decimals g ->
  exists file,
    write_colormap g = Ok file
    /\ create_colormap file tt = Ok (map opaque g).
Proof.
  intros Hv H6.
  destruct (valid_shape g Hv) as (s0 & mid & sN & E & H0 & H1).
  apply valid_parts in Hv as (Ha & _ & _). subst g.
  assert (P0 : pos s0 = 0).
  { apply six_decimals_zero; [|assumption].
    apply (proj1 (Forall_forall _ _) H6). left. reflexivity. }
  assert (PN : pos sN = 1).
  { apply six_decimals_one; [|assumption].
    apply (proj1 (Forall_forall _ _) H6). right. apply in_or_app.
    right. left. reflexivity. }
  unfold write_colormap. cbn [colorStops GradientLib].
  change (py_index (s0 :: mid ++ [sN]) 0) with (Ok s0). cbn [bind].
  rewrite (app_comm_cons mid [sN] s0), py_index_last. cbn [bind].
  rewrite <- app_comm_cons.
  eexists. split; [reflexivity|].
  unfold create_colormap.
  cbn [sf_color1_rgb sf_color2_rgb sf_addColorStop].
  rewrite !QColor_of_rgb_opaque.
  unfold slice_1_m1. cbn [tl]. rewrite removelast_last.
  cbn [EditableColormap addColorStop GradientLib]. unfold make.
  replace (map (fun stop => (fmt6 (pos stop),
                             QColor_rgb (QColor_of_rgb (rgb stop)))) mid)
    with (map (fun s => (pos s, rgb s)) (map opaque mid)).
  2:{ rewrite map_map. apply map_ext_in. intros s Hs. cbn [opaque pos rgb].
      f_equal. symmetry. apply (proj1 (Forall_forall _ _) H6).
      right. apply in_or_app. left. assumption. }
  change [mkStop 0 (QColor_rgb (QColor_of_rgb (rgb s0)));
          mkStop 1 (QColor_rgb (QColor_of_rgb (rgb sN)))]
    with ([mkStop 0 (QColor_rgb (QColor_of_rgb (rgb s0)))]
            ++ [mkStop 1 (QColor_rgb (QColor_of_rgb (rgb sN)))]).
  rewrite <- P0, <- PN.
  change (mkStop (pos s0) (QColor_rgb (QColor_of_rgb (rgb s0))))
    with (opaque s0).
  change (mkStop (pos sN) (QColor_rgb (QColor_of_rgb (rgb sN))))
    with (opaque sN).
  rewrite build_sorted.
  - cbn [map app]. rewrite map_app. reflexivity.
  - rewrite <- Ha. apply ascending_ext.
    cbn [app map]. rewrite !map_app, map_pos_opaque. reflexivity.
Qed.

End RoundTripFacts.

(** C1 (amended).  For a valid gradient whose stop positions are exact
    to six decimals, the file written by [save_colormap] loads back, by
    its [create_colormap], to the gradient with the same stop positions
    and the same three channels for every stop; sampling that gradient at
    the saved positions gives the saved colours, and sampling it at a
    stop position of the original gives the colour of that stop. *)
Theorem save_load_roundtrip_six_decimals :
  forall g, Gradient.valid g = true -> Gradient.six_decimals g ->
    roundtrip g
    /\ exists file,
        write_colormap g = Ok file
        /\ load_module (Ok (exec_file file)) = Ok (map Gradient.opaque g)
        /\ forall s, In s g ->
             channels (Gradient.sample (map Gradient.opaque g) (pos s))
             = channels (rgb s).
Proof.
  intros g Hv H6.
  destruct (RoundTripFacts.write_then_create g Hv H6) as (file & Hw & Hc).
  assert (Hl : load_module (Ok (exec_file file))
               = Ok (map Gradient.opaque g)) by exact Hc.
  split.
  - exists file, (map Gradient.opaque g).
    split; [assumption|]. split; [assumption|]. split.
    + apply RoundTripFacts.same_stops_opaque.
    + destruct (write_colormap_arrays (L := GradientLib) g file Hw)
        as [-> _].
      apply map_ext. intros p.
      apply RoundTripFacts.channels_sample_opaque.
  - exists file. split; [assumption|]. split; [assumption|].
    intros s Hs. rewrite RoundTripFacts.channels_sample_opaque.
    rewrite (GradientFacts.sample_hit g s Hv Hs). reflexivity.
Qed.

Lemma save_load_roundtrip_six_decimals_witness :
  Gradient.valid quarter_gradient = true
  /\ Gradient.six_decimals quarter_gradient
  /\ roundtrip quarter_gradient.
Proof.
  refine (let H6 := _ in
          conj eq_refl
            (conj H6
               (proj1 (save_load_roundtrip_six_decimals
                         quarter_gradient eq_refl H6)))).
  repeat constructor.
Defined.

(** C1 as stated fails: a stop at 129/1024 = 0.1259765625 is written as
    0.125977, so the gradient read back has a stop at another
    position. *)
Lemma roundtrip_moves_a_stop :
  Gradient.valid binary_gradient = true /\ ~ roundtrip binary_gradient.
Proof.
  split; [reflexivity|].
  intros (file & g' & Hw & Hl & Hs & _).
  vm_compute in Hw. injection Hw as Hw. subst file.
  vm_compute in Hl. injection Hl as Hl. subst g'.
  inversion Hs as [|? ? ? ? _ Hs']; subst.
  inversion Hs' as [|? ? ? ? [Hp _] _]; subst.
  vm_compute in Hp. discriminate Hp.
Qed.

(* ------------------------------------------------------------------ *)
(** ** The editor session keeps its gradient valid *)

Module SessionFacts.
Import Gradient GradientFacts RoundTripFacts.

Local Open Scope Q_scope.

Lemma occupied_false g p :
  occupied g p = false -> forall s, In s g -> ~ pos s == p.
Proof.
  induction g as [|a g IH]; intros H s Hs; [contradiction|].
  cbn [occupied existsb] in H. apply orb_false_iff in H as [Ha Hg].
  destruct Hs as [<- | Hs]; [qprop; assumption | auto].
Qed.

Lemma occupied_true g p s :
  In s g -> pos s == p -> occupied g p = true.
Proof.
  intros Hs Hp. apply existsb_exists. exists s. split; [assumption|].
  qprop. assumption.
Qed.



Lemma insert_head s g y l' :
  insert s g = y :: l' -> y = s \/ exists l'', g = y :: l''.
Proof.
  destruct g as [|x g]; cbn [insert].
  - intros [= <- _]. left. reflexivity.
  - destruct (Qle_bool (pos s) (pos x)); intros [= <- _].
    + left. reflexivity.
    + right. eauto.
Qed.

Lemma In_insert s g y : In y g -> In y (insert s g).
Proof.
  induction g as [|x g IH]; [contradiction|]. intros H. cbn [insert].
  destruct (Qle_bool (pos s) (pos x)).
  - right. assumption.
  - destruct H as [<- | H]; [left; reflexivity | right; auto].
Qed.

Lemma insert_nonempty s g : insert s g <> [].
Proof.
  destruct g as [|x g]; cbn [insert]; [discriminate|].
  destruct (Qle_bool (pos s) (pos x)); discriminate.
Qed.

Lemma ascending_insert s g :
  ascending g = true -> occupied g (pos s) = false ->
  ascending (insert s g) = true.
Proof.
  induction g as [|x g IH]; intros Ha Ho; [reflexivity|].
  cbn [occupied existsb] in Ho. apply orb_false_iff in Ho as [Hx Hg].
  cbn [insert]. destruct (Qle_bool (pos s) (pos x)) eqn:E.
  - apply ascending_cons. split; [assumption|].
    intros y l' [= <- <-]. qprop.
    apply Qle_lteq in E as [E | E]; [assumption|].
    exfalso. apply Hx. symmetry. assumption.
  - apply ascending_cons. split.
    + apply IH; [eapply ascending_tl; eauto | assumption].
    + intros y l' Ey. apply insert_head in Ey as [-> | [l'' ->]].
      * qprop. assumption.
      * apply (ascending_above _ _ Ha). left. reflexivity.
Qed.

Lemma last_cons {A} (x : A) l d : l <> [] -> last (x :: l) d = last l d.
Proof. destruct l; [contradiction | reflexivity]. Qed.

Lemma last_insert s g d :
  g <> [] -> pos s <= pos (last g d) -> last (insert s g) d = last g d.
Proof.
  induction g as [|x g IH]; intros Hne H; [contradiction|].
  cbn [insert]. destruct (Qle_bool (pos s) (pos x)) eqn:E; [reflexivity|].
  destruct g as [|y g].
  - cbn [last] in H. qprop. lra.
  - rewrite last_cons by apply insert_nonempty.
    rewrite IH; [reflexivity | discriminate | exact H].
Qed.

(** Adding a stop at a free position of [0, 1] keeps the gradient
    valid. *)
Lemma valid_AddStop g p c g' :
  valid g = true -> in_unit_interval p = true ->
  AddStop g p c = Ok g' -> valid g' = true.
Proof.
  intros Hv Hp. unfold AddStop.
  destruct (occupied g p) eqn:Ho; [discriminate|]. intros [= <-].
  destruct (valid_shape g Hv) as (s0 & mid & sN & E & H0 & H1).
  pose proof (occupied_false g p Ho) as Hfree.
  assert (F0 : ~ pos s0 == p) by (apply Hfree; subst g; left; reflexivity).
  assert (F1 : ~ pos sN == p).
  { apply Hfree. subst g. right. apply in_or_app. right. left.
    reflexivity. }
  unfold in_unit_interval in Hp. qprop.
  assert (P0 : 0 < p).
  { match goal with H : 0 <= p |- _ => apply Qle_lteq in H as [H | H] end;
      [assumption|]. exfalso. apply F0. rewrite H0. assumption. }
  assert (P1 : p < 1).
  { match goal with H : p <= 1 |- _ => apply Qle_lteq in H as [H | H] end;
      [assumption|]. exfalso. apply F1. rewrite H1. symmetry. assumption. }
  apply valid_parts in Hv as (Ha & Hf & Hl).
  unfold valid. rewrite ascending_insert by assumption. cbn [andb].
  apply andb_true_iff. split; qprop.
  - subst g. cbn [insert pos].
    replace (Qle_bool p (pos s0)) with false by (symmetry; qprop; lra).
    exact H0.
  - unfold last_pos in *. rewrite last_insert.
    + assumption.
    + subst g. discriminate.
    + cbn [pos]. lra.
Qed.

Lemma map_pos_set_color n c g : map pos (set_color n c g) = map pos g.
Proof.
  revert n. induction g as [|a g IH]; intros [|n]; cbn [set_color map pos];
    try reflexivity.
  rewrite IH. reflexivity.
Qed.














End SessionFacts.







(** C10.  In the array shape only the colours of the first and last
    entries serve for the boundary stops: [color_positions[0]] and
    [color_positions[-1]] are not read, whatever the gradient library,
    and with the gradient of the specification the stops of the first and
    last colour are at 0.0 and 1.0. *)
Theorem boundary_positions_are_not_read :
  (forall (L : ColormapLib) p0 pN p0' pN' mid cs,
      colormap_from_arrays (p0 :: mid ++ [pN]) cs
      = colormap_from_arrays (p0' :: mid ++ [pN']) cs)
  /\ (forall (L : ColormapLib) p p' cs,
         colormap_from_arrays [p] cs = colormap_from_arrays [p'] cs)
  /\ (forall ps cs (g : Gradient.t),
         colormap_from_arrays (L := GradientLib) ps cs = Ok g ->
         exists c0 cN,
           color_at cs 0 = Ok c0 /\ color_at cs (-1) = Ok cN
           /\ In (mkStop 0 (QColor_rgb c0)) g
           /\ In (mkStop 1 (QColor_rgb cN)) g).
Proof.
  split; [|split].
  - intros L p0 pN p0' pN' mid cs.
    apply colormap_from_arrays_inner.
    + cbn [List.length]. rewrite !length_app. reflexivity.
    + intros k Hk Hlen. destruct k as [|k]; [lia|].
      cbn [List.length] in Hlen. rewrite length_app in Hlen.
      cbn [List.length] in Hlen. cbn [nth_error].
      rewrite !nth_error_app1 by lia. reflexivity.
  - intros L p p' cs. apply colormap_from_arrays_inner; [reflexivity|].
    intros k Hk Hlen. cbn [List.length] in Hlen. lia.
  - intros ps cs g. unfold colormap_from_arrays.
    destruct (color_at cs 0) as [c0|]; cbn [bind]; [|discriminate].
    destruct (color_at cs (-1)) as [cN|]; cbn [bind]; [|discriminate].
    intros H. exists c0, cN. split; [reflexivity|]. split; [reflexivity|].
    revert H.
    apply (for_each_inv
             (fun x : Gradient.t =>
                In (mkStop 0 (QColor_rgb c0)) x
                /\ In (mkStop 1 (QColor_rgb cN)) x)).
    + intros i x y _ [H0 H1].
      destruct (py_index ps i) as [p|]; cbn [bind]; [|discriminate].
      destruct (py_index cs i) as [c|]; cbn [bind]; [|discriminate].
      destruct (unpack3 c) as [[[r g0] b]|]; cbn [bind]; [|discriminate].
      cbn [addColorStop GradientLib]. unfold Gradient.AddStop.
      destruct (Gradient.occupied x p); [discriminate|]. intros [= <-].
      split; apply SessionFacts.In_insert; assumption.
    + split; [left | right; left]; reflexivity.
Qed.

Lemma boundary_positions_are_not_read_witness :
  let cs := [[0; 0; 0]; [1; 0; 0]; [1; 1; 1]]%Q in
  let g := [mkStop 0 (qRgb 0 0 0); mkStop (1 # 2) (qRgb 255 0 0);
            mkStop 1 (qRgb 255 255 255)] in
  colormap_from_arrays (L := GradientLib) [5; 1 # 2; 7]%Q cs = Ok g
  /\ colormap_from_arrays (L := GradientLib) [5; 1 # 2; 7]%Q cs
     = colormap_from_arrays [0; 1 # 2; 1]%Q cs
  /\ exists c0 cN,
       color_at cs 0 = Ok c0 /\ color_at cs (-1) = Ok cN
       /\ In (mkStop 0 (QColor_rgb c0)) g
       /\ In (mkStop 1 (QColor_rgb cN)) g.
Proof.
  intros cs g. split; [reflexivity|]. split.
  - exact (proj1 boundary_positions_are_not_read GradientLib
             5%Q 7%Q 0%Q 1%Q [1 # 2]%Q cs).
  - exact (proj2 (proj2 boundary_positions_are_not_read)
             [5; 1 # 2; 7]%Q cs g eq_refl).
Defined.

Lemma add_stop_ignores_occupied_positions_witness :
  let self := @init_app GradientLib grey_gradient in
  let s := mkStop 0 (qRgb 0 0 0) in
  In s (colorStops (colormap self))
  /\ add_new_color_stop self (mkAddStop true (pos s) ChooseColor (Some Qt_white))
     = escapes self (mkExc ValidationError "position already occupied").
Proof.
  intros self s. split; [left; reflexivity|].
  exact (eq_trans
           (proj2 (@add_stop_ignores_occupied_positions GradientLib)
              self s Qt_white (or_introl eq_refl))
           eq_refl).
Defined.

Lemma saved_accessor_has_no_count_witness :
  let self := @init_app GradientLib grey_gradient in
  exists file,
    write_colormap (colormap (set_num_colors self 512)) = Ok file
    /\ exists get_rgb_array,
        m_get_rgb_array (exec_file file) = Some get_rgb_array
        /\ get_rgb_array [] = Ok (sf_rgb_array file)
        /\ List.length (sf_rgb_array file) = 512%nat
        /\ exists msg, get_rgb_array [100] = Raise (mkExc TypeError msg).
Proof.
  intros self.
  destruct (write_colormap (colormap (set_num_colors self 512)))
    as [file|e] eqn:Hw; [|vm_compute in Hw; discriminate Hw].
  exists file. split; [reflexivity|].
  exact (saved_accessor_has_no_count self 512 file 100 Hw).
Defined.

Lemma sample_count_is_always_512_witness :
  let self := @init_app GradientLib grey_gradient in
  List.length (rgb_preview (update_tables (set_num_colors self 16)))
    = 512%nat
  /\ (exists file,
        write_colormap (colormap (set_num_colors self 16)) = Ok file
        /\ List.length (sf_rgb_array file) = 512%nat
        /\ List.length (sf_positions file) = 512%nat)
  /\ 0 <= 15 < 512
  /\ nth_error saved_positions 15 = Some (py_div 15 511).
Proof.
  intros self.
  destruct (sample_count_is_always_512 self 16) as (H1 & H2 & H3 & _).
  split; [exact H1|]. split.
  - destruct (write_colormap (colormap (set_num_colors self 16)))
      as [file|e] eqn:Hw; [|vm_compute in Hw; discriminate Hw].
    exists file. split; [reflexivity|]. exact (H2 file eq_refl).
  - split; [lia|]. exact (H3 15 ltac:(lia)).
Defined.

(* ------------------------------------------------------------------ *)
(** * Further properties of the handlers *)

(** ** Six-decimal text *)

Module FormatFacts.

Local Open Scope Q_scope.

Lemma round_half_even_near x :
  inject_Z (round_half_even x) - x <= 1 # 2
  /\ x - inject_Z (round_half_even x) <= 1 # 2.
Proof.
  unfold round_half_even. cbv zeta.
  pose proof (Qfloor_le x) as Hlo. pose proof (Qlt_floor x) as Hhi.
  rewrite inject_Z_plus in Hhi. change (inject_Z 1) with 1 in Hhi.
  destruct (Qcompare_spec (x - inject_Z (Qfloor x)) (1 # 2)) as [E | E | E].
  - destruct (Z.even (Qfloor x)); rewrite ?inject_Z_plus;
      change (inject_Z 1) with 1; split; lra.
  - split; lra.
  - rewrite inject_Z_plus. change (inject_Z 1) with 1. split; lra.
Qed.

Lemma round_half_even_Z n : round_half_even (inject_Z n) = n.
Proof.
  unfold round_half_even. cbv zeta. rewrite Qfloor_Z.
  rewrite (GradientFacts.Qcompare_Lt (inject_Z n - inject_Z n) (1 # 2))
    by lra.
  reflexivity.
Qed.

Lemma Qmake_millionths n : n # 1000000 == inject_Z n * (1 # 1000000).
Proof. unfold Qeq, inject_Z, Qmult. cbn. lia. Qed.

Lemma fmt6_value x :
  fmt6 x == inject_Z (round_half_even (x * 1000000)) * (1 # 1000000).
Proof. unfold fmt6. rewrite Qred_correct. apply Qmake_millionths. Qed.

(** Writing a number on six decimals moves it by at most half a unit of
    the sixth decimal. *)
Lemma fmt6_near x : within_half_millionth x (fmt6 x).
Proof.
  unfold within_half_millionth. rewrite fmt6_value.
  destruct (round_half_even_near (x * 1000000)) as [H1 H2].
  split; lra.
Qed.

(** A number read from six decimals is written back as it is. *)
Lemma fmt6_idempotent x : fmt6 (fmt6 x) = fmt6 x.
Proof.
  unfold fmt6 at 2 3. set (n := round_half_even (x * 1000000)).
  rewrite (RoundTripFacts.fmt6_comp (Qred (n # 1000000)) (n # 1000000))
    by apply Qred_correct.
  unfold fmt6.
  rewrite (RoundTripFacts.round_half_even_comp
             ((n # 1000000) * 1000000) (inject_Z n)).
  - rewrite round_half_even_Z. reflexivity.
  - rewrite Qmake_millionths. field.
Qed.

Lemma In_py_range lo hi i : (lo <= i < hi)%Z -> In i (py_range lo hi).
Proof.
  intros H. unfold py_range. apply in_map_iff.
  exists (Z.to_nat (i - lo)). split; [lia|]. apply in_seq. lia.
Qed.

(** A channel written as [c / 255] on six decimals is read back by
    [fromRgbF] as [c]. *)
Lemma channel_text_roundtrip k :
  is_byte k -> channel_of_float (fmt6 (py_div (inject_Z k) 255)) = k.
Proof.
  intros Hk.
  assert (H : forallb
                (fun k => channel_of_float (fmt6 (py_div (inject_Z k) 255))
                          =? k)%Z
                (py_range 0 256) = true) by (vm_compute; reflexivity).
  apply Z.eqb_eq.
  apply (proj1 (forallb_forall _ _) H). apply In_py_range.
  unfold is_byte in Hk. lia.
Qed.

Lemma is_byte_qRed c : is_byte (qRed c).
Proof. apply land_255_range. Qed.

Lemma is_byte_qGreen c : is_byte (qGreen c).
Proof. apply land_255_range. Qed.

Lemma is_byte_qBlue c : is_byte (qBlue c).
Proof. apply land_255_range. Qed.

Lemma saved_triple_color s :
  triple_color (saved_triple s) = QColor_of_rgb (rgb s).
Proof.
  unfold saved_triple, triple_color, fromRgbF, QColor_of_rgb.
  cbn [red green blue].
  rewrite !channel_text_roundtrip
    by (apply is_byte_qRed || apply is_byte_qGreen || apply is_byte_qBlue).
  reflexivity.
Qed.

End FormatFacts.

(** ** Saving, loading and the tables, for every gradient library *)

Section MoreHandlers.

Context {L : ColormapLib}.

Lemma write_colormap_no_stops cm :
  colorStops cm = [] ->
  write_colormap cm = Raise (mkExc IndexError "list index out of range").
Proof. intros H. unfold write_colormap. rewrite H. reflexivity. Qed.

Lemma write_colormap_some_stops cm :
  colorStops cm <> [] -> exists file, write_colormap cm = Ok file.
Proof.
  intros H. unfold write_colormap.
  destruct (colorStops cm) as [|s rest] eqn:E; [contradiction|].
  destruct (py_index_nonempty (s :: rest) s rest eq_refl)
    as (H0 & z & Hz & _).
  rewrite H0, Hz. cbn [bind]. eexists. reflexivity.
Qed.

(** X1.  [save_colormap] never changes the window and never shows a
    message box.  It creates or truncates the chosen file exactly when a
    file name was chosen and the file could be opened.  The file holds
    the whole text exactly when, besides, the colormap has at least one
    stop.  With no stop, [stops[0]] raises [IndexError] out of the
    handler and the file is left with two empty arrays and an unfinished
    [create_colormap]. *)
Theorem save_leaves_a_whole_file_iff_a_stop :
  forall self filename opened,
    let out := save_colormap self filename opened in
    app_after out = self
    /\ dialogs out = []
    /\ (written out <> None <->
        filename <> ""%string /\ (exists u, opened = Ok u))
    /\ ((exists file, written out = Some (filename, WholeFile file)) <->
        filename <> ""%string /\ (exists u, opened = Ok u)
        /\ colorStops (colormap self) <> [])
    /\ (filename <> ""%string -> (exists u, opened = Ok u) ->
        colorStops (colormap self) = [] ->
        escaped out = Some (mkExc IndexError "list index out of range")
        /\ written out = Some (filename, BrokenFile [] [])).
Proof.
  intros self filename opened out. subst out. unfold save_colormap.
  destruct (String.eqb_spec filename "") as [-> | Hname].
  - split; [reflexivity|]. split; [reflexivity|].
    split; [split|split; [split|]].
    + intros H. exfalso. apply H. reflexivity.
    + intros (H & _). exfalso. apply H. reflexivity.
    + intros (file & H). discriminate H.
    + intros (H & _). exfalso. apply H. reflexivity.
    + intros H. exfalso. apply H. reflexivity.
  - destruct opened as [u|e].
    + destruct (colorStops (colormap self)) as [|s rest] eqn:Hs.
      * rewrite (write_colormap_no_stops _ Hs).
        unfold written_before_failure. rewrite Hs.
        split; [reflexivity|]. split; [reflexivity|].
        split; [split|split; [split|]].
        -- intros _. split; [assumption|]. exists u. reflexivity.
        -- intros _. discriminate.
        -- intros (file & H). discriminate H.
        -- intros (_ & _ & H). exfalso. apply H. reflexivity.
        -- intros _ _ _. split; reflexivity.
      * destruct (write_colormap_some_stops (colormap self)) as [file Hf];
          [congruence|].
        rewrite Hf.
        split; [reflexivity|]. split; [reflexivity|].
        split; [split|split; [split|]].
        -- intros _. split; [assumption|]. exists u. reflexivity.
        -- intros _. discriminate.
        -- intros _. split; [assumption|]. split; [|discriminate].
           exists u. reflexivity.
        -- intros _. exists file. reflexivity.
        -- intros _ _ H. discriminate H.
    + split; [reflexivity|]. split; [reflexivity|].
      split; [split|split; [split|]].
      * intros H. exfalso. apply H. reflexivity.
      * intros (_ & (u & H)). discriminate H.
      * intros (file & H). discriminate H.
      * intros (_ & (u & H) & _). discriminate H.
      * intros _ (u & H). discriminate H.
Qed.

Lemma unit_interval_byte k :
  is_byte k ->
  (0 <= fmt6 (py_div (inject_Z k) 255)
   /\ fmt6 (py_div (inject_Z k) 255) <= 1)%Q.
Proof.
  intros Hk.
  assert (H : forallb
                (fun k => in_unit_interval (fmt6 (py_div (inject_Z k) 255)))
                (py_range 0 256) = true) by (vm_compute; reflexivity).
  assert (Hin : in_unit_interval (fmt6 (py_div (inject_Z k) 255)) = true).
  { apply (proj1 (forallb_forall _ _) H). apply FormatFacts.In_py_range.
    unfold is_byte in Hk. lia. }
  unfold in_unit_interval in Hin. apply andb_prop in Hin as [H0 H1].
  split; apply Qle_bool_iff; assumption.
Qed.

Lemma slice_1_m1_length {A} (l : list A) :
  List.length (slice_1_m1 l) = (List.length l - 2)%nat.
Proof.
  unfold slice_1_m1. destruct l as [|a l]; [reflexivity|]. cbn [tl].
  destruct l as [|b l']; [reflexivity|].
  destruct (exists_last (l := b :: l') ltac:(discriminate)) as (m & z & E).
  rewrite E, removelast_last. cbn [List.length]. rewrite length_app.
  cbn [List.length]. lia.
Qed.

(** X2.  The layout of a saved file: [color_positions] and [rgb_colors] have
    one entry per stop; every colour has three components between 0 and
    1; [create_colormap] adds every stop but the first and the last; the
    sample array has rows of three integers between 0 and 255. *)
Theorem saved_file_layout :
  forall cm file,
    write_colormap cm = Ok file ->
    let n := List.length (colorStops cm) in
    List.length (sf_color_positions file) = n
    /\ List.length (sf_rgb_colors file) = n
    /\ Forall (fun c => List.length c = 3%nat
                        /\ Forall (fun x => (0 <= x /\ x <= 1)%Q) c)
              (sf_rgb_colors file)
    /\ List.length (sf_addColorStop file) = (n - 2)%nat
    /\ Forall (fun row => List.length row = 3%nat /\ Forall is_byte row)
              (sf_rgb_array file).
Proof.
  intros cm file. unfold write_colormap.
  destruct (py_index (colorStops cm) 0); cbn [bind]; [|discriminate].
  destruct (py_index (colorStops cm) (-1)); cbn [bind]; [|discriminate].
  generalize saved_positions. intros sampled [= <-].
  cbn [sf_color_positions sf_rgb_colors sf_addColorStop sf_rgb_array].
  rewrite !length_map, slice_1_m1_length.
  split; [reflexivity|]. split; [reflexivity|]. split; [|split].
  - apply Forall_forall. intros c Hc. apply in_map_iff in Hc as (s & <- & _).
    split; [reflexivity|].
    repeat constructor; apply unit_interval_byte;
      first [apply FormatFacts.is_byte_qRed
            | apply FormatFacts.is_byte_qGreen
            | apply FormatFacts.is_byte_qBlue].
  - reflexivity.
  - apply Forall_forall. intros r Hr. apply in_map_iff in Hr as (p & <- & _).
    split; [reflexivity|].
    repeat constructor;
      first [apply FormatFacts.is_byte_qRed
            | apply FormatFacts.is_byte_qGreen
            | apply FormatFacts.is_byte_qBlue].
Qed.

Lemma write_colormap_positions cm file :
  write_colormap cm = Ok file ->
  sf_color_positions file = map (fun s => fmt6 (pos s)) (colorStops cm)
  /\ sf_positions file
     = List.concat
         (map (fun i => map fmt6
                          (firstn 10 (skipn (Z.to_nat i) saved_positions)))
              (py_range_step 0 512 10)).
Proof.
  unfold write_colormap.
  destruct (py_index (colorStops cm) 0); cbn [bind]; [|discriminate].
  destruct (py_index (colorStops cm) (-1)); cbn [bind]; [|discriminate].
  intros [= <-]. split; reflexivity.
Qed.

Lemma Forall2_map_near (l : list Q) :
  Forall2 within_half_millionth l (map fmt6 l).
Proof.
  induction l as [|x l IH]; constructor; [apply FormatFacts.fmt6_near|].
  assumption.
Qed.

(** X3.  Every position in a saved file is within 0.0000005 of the position
    it stands for: the entries of [color_positions] of the stop
    positions, and the 512 values of [get_positions], in order, of
    [i / 511]. *)
Theorem saved_positions_are_near :
  forall cm file,
    write_colormap cm = Ok file ->
    Forall2 within_half_millionth
      (map pos (colorStops cm)) (sf_color_positions file)
    /\ sf_positions file = map fmt6 saved_positions
    /\ Forall2 within_half_millionth saved_positions (sf_positions file).
Proof.
  intros cm file H.
  destruct (write_colormap_positions cm file H) as [-> ->].
  assert (E : List.concat
                (map (fun i => map fmt6
                                 (firstn 10 (skipn (Z.to_nat i)
                                               saved_positions)))
                     (py_range_step 0 512 10))
              = map fmt6 saved_positions) by (vm_compute; reflexivity).
  rewrite E. split; [|split].
  - rewrite <- (map_map pos fmt6). apply Forall2_map_near.
  - reflexivity.
  - apply Forall2_map_near.
Qed.

End MoreHandlers.

Lemma save_leaves_a_whole_file_iff_a_stop_witness :
  let self := @init_app GradientLib [] in
  "empty.py"%string <> ""%string
  /\ (exists u, Ok tt = @Ok unit u)
  /\ colorStops (colormap self) = []
  /\ escaped (save_colormap self "empty.py" (Ok tt))
     = Some (mkExc IndexError "list index out of range")
  /\ written (save_colormap self "empty.py" (Ok tt))
     = Some ("empty.py"%string, BrokenFile [] []).
Proof.
  intros self.
  assert (Hn : "empty.py"%string <> ""%string) by discriminate.
  assert (Ho : exists u, Ok tt = @Ok unit u) by (exists tt; reflexivity).
  exact (conj Hn (conj Ho (conj eq_refl
           (proj2 (proj2 (proj2 (proj2
              (@save_leaves_a_whole_file_iff_a_stop GradientLib
                 self "empty.py"%string (Ok tt))))) Hn Ho eq_refl)))).
Defined.

Lemma saved_file_layout_witness :
  exists file,
    write_colormap (L := GradientLib) quarter_gradient = Ok file
    /\ List.length (sf_color_positions file) = 3%nat
    /\ List.length (sf_addColorStop file) = 1%nat.
Proof.
  destruct (write_colormap (L := GradientLib) quarter_gradient)
    as [file|e] eqn:Hw; [|vm_compute in Hw; discriminate Hw].
  exists file. split; [reflexivity|].
  destruct (@saved_file_layout GradientLib quarter_gradient file Hw)
    as (H1 & _ & _ & H4 & _).
  split; [exact H1 | exact H4].
Defined.

Lemma saved_positions_are_near_witness :
  exists file,
    write_colormap (L := GradientLib) binary_gradient = Ok file
    /\ Forall2 within_half_millionth
         [0; 129 # 1024; 1]%Q (sf_color_positions file).
Proof.
  destruct (write_colormap (L := GradientLib) binary_gradient)
    as [file|e] eqn:Hw; [|vm_compute in Hw; discriminate Hw].
  exists file. split; [reflexivity|].
  exact (proj1 (@saved_positions_are_near GradientLib
                  binary_gradient file Hw)).
Defined.

Section MoreLoading.

Context {L : ColormapLib}.

Lemma write_colormap_shape cm file :
  write_colormap cm = Ok file ->
  exists s0 rest,
    colorStops cm = s0 :: rest
    /\ sf_color_positions file = map (fun s => fmt6 (pos s)) (s0 :: rest)
    /\ sf_rgb_colors file
       = map (fun s => triple_list (saved_triple s)) (s0 :: rest)
    /\ sf_color1_rgb file = QColor_rgb (QColor_of_rgb (rgb s0))
    /\ sf_color2_rgb file
       = QColor_rgb (QColor_of_rgb (rgb (last (s0 :: rest) s0)))
    /\ sf_addColorStop file
       = map (fun s => (fmt6 (pos s), QColor_rgb (QColor_of_rgb (rgb s))))
             (slice_1_m1 (s0 :: rest)).
Proof.
  unfold write_colormap.
  destruct (colorStops cm) as [|s0 rest] eqn:E; [discriminate|].
  destruct (py_index_nonempty (s0 :: rest) s0 rest eq_refl)
    as (H0 & z & Hz & Hlast).
  rewrite H0, Hz. cbn [bind]. intros [= <-]. exists s0, rest.
  subst z. repeat split; reflexivity.
Qed.

(** X4.  The two shapes of a saved file agree: what [load_colormap] builds
    from [color_positions] and [rgb_colors] alone is what
    [create_colormap] builds, call for call, whatever the gradient
    library. *)
Theorem saved_arrays_rebuild_what_constructor_builds :
  forall cm file,
    write_colormap cm = Ok file ->
    colormap_from_arrays (sf_color_positions file) (sf_rgb_colors file)
    = create_colormap file tt.
Proof.
  intros cm file H.
  destruct (write_colormap_shape cm file H)
    as (s0 & rest & _ & Hp & Hc & H1 & H2 & Ha).
  unfold create_colormap. rewrite Hp, Hc, H1, H2, Ha.
  rewrite !QColor_of_rgb_opaque. clear.
  destruct rest as [|b rest'].
  - unfold colormap_from_arrays. cbn [map].
    rewrite color_at_first. cbn [bind].
    change [triple_list (saved_triple s0)]
      with ([] ++ [triple_list (saved_triple s0)]).
    rewrite color_at_last. cbn [bind].
    rewrite FormatFacts.saved_triple_color. reflexivity.
  - destruct (exists_last (l := b :: rest') ltac:(discriminate))
      as (mid & sN & E).
    rewrite E.
    assert (El : last (s0 :: mid ++ [sN]) s0 = sN)
      by (rewrite app_comm_cons; apply last_last).
    rewrite El.
    unfold slice_1_m1. cbn [tl]. rewrite removelast_last.
    set (mid' := map (fun s => (fmt6 (pos s), saved_triple s)) mid).
    assert (Ep : map (fun s => fmt6 (pos s)) (s0 :: mid ++ [sN])
                 = fmt6 (pos s0) :: map fst mid' ++ [fmt6 (pos sN)]).
    { subst mid'. cbn [map]. rewrite map_app, map_map. reflexivity. }
    assert (Ec : map (fun s => triple_list (saved_triple s))
                     (s0 :: mid ++ [sN])
                 = map triple_list
                     (saved_triple s0 :: map snd mid' ++ [saved_triple sN])).
    { subst mid'. cbn [map]. rewrite !map_app, !map_map. reflexivity. }
    rewrite Ep, Ec, colormap_from_arrays_parallel.
    unfold rebuild_spec. subst mid'.
    rewrite !for_each_map, !FormatFacts.saved_triple_color.
    apply for_each_ext. intros s x _. cbn beta iota.
    rewrite FormatFacts.saved_triple_color. reflexivity.
Qed.


Lemma for_each_ok_all {A St} (l : list A) (f : A -> St -> PyResult St)
    s s' :
  for_each l f s = Ok s' ->
  forall a, In a l -> exists x y, f a x = Ok y.
Proof.
  revert s. induction l as [|b l IH]; intros s H a Ha; [contradiction|].
  cbn [for_each] in H. destruct (f b s) as [y|e] eqn:E; cbn [bind] in H;
    [|discriminate].
  destruct Ha as [<- | Ha]; [eauto | eapply IH; eauto].
Qed.

(** X6.  The array shape needs a colour for every position but the last:
    with no colour at all the load fails with [IndexError], and so it
    does, at the latest in the loop, when [rgb_colors] is shorter than
    [color_positions] by two or more. *)
Theorem short_rgb_colors_fail :
  (forall ps,
      colormap_from_arrays ps []
      = Raise (mkExc IndexError "list index out of range"))
  /\ (forall ps cs,
         (0 < List.length cs)%nat ->
         (List.length cs + 2 <= List.length ps)%nat ->
         forall cm, colormap_from_arrays ps cs <> Ok cm).
Proof.
  split; [reflexivity|].
  intros ps cs Hcs Hlen cm. unfold colormap_from_arrays.
  destruct (color_at cs 0); cbn [bind]; [|discriminate].
  destruct (color_at cs (-1)); cbn [bind]; [|discriminate].
  intros H.
  destruct (for_each_ok_all _ _ _ _ H (Z.of_nat (List.length cs)))
    as (x & y & Hxy).
  - apply FormatFacts.In_py_range. lia.
  - destruct (py_index ps (Z.of_nat (List.length cs))); cbn [bind] in Hxy;
      [|discriminate].
    assert (E : py_index cs (Z.of_nat (List.length cs))
                = Raise (mkExc IndexError "list index out of range")).
    { unfold py_index.
      destruct (Z.ltb_spec (Z.of_nat (List.length cs)) 0); [lia|].
      destruct (Z.ltb_spec (Z.of_nat (List.length cs)) 0); [lia|].
      destruct (Z.leb_spec (Z.of_nat (List.length cs))
                  (Z.of_nat (List.length cs))); [reflexivity | lia]. }
    rewrite E in Hxy. discriminate Hxy.
Qed.

(** X7.  [edit_color] on a row that names no stop raises [IndexError] before
    any colour is asked for, and the window is as it was. *)
Theorem edit_color_row_out_of_range :
  forall self row new_color,
    Z.of_nat (List.length (colorStops (colormap self))) <= row ->
    edit_color self row 2 new_color
    = escapes self (mkExc IndexError "list index out of range").
Proof.
  intros self row c H. unfold edit_color. cbn [Z.eqb Pos.eqb].
  unfold py_index.
  destruct (Z.ltb_spec row 0); [lia|].
  destruct (Z.ltb_spec row 0); [lia|].
  destruct (Z.leb_spec (Z.of_nat (List.length (colorStops (colormap self))))
              row); [reflexivity | lia].
Qed.

Lemma nth_error_combine {A B} (l1 : list A) (l2 : list B) k a b :
  nth_error l1 k = Some a -> nth_error l2 k = Some b ->
  nth_error (combine l1 l2) k = Some (a, b).
Proof.
  revert l2 k. induction l1 as [|x l1 IH]; intros [|y l2] [|k] H1 H2;
    try discriminate.
  - cbn in *. congruence.
  - cbn [combine nth_error] in *. auto.
Qed.

Lemma enumerate_nth {A} (l : list A) k a :
  nth_error l k = Some a ->
  nth_error (enumerate l) k = Some (Z.of_nat k, a).
Proof.
  intros H. unfold enumerate. apply nth_error_combine; [|assumption].
  assert (Hk : (k < List.length l)%nat) by (apply nth_error_Some; congruence).
  rewrite py_range_nth by lia. reflexivity.
Qed.

(** X8.  After [update_tables] the stops table has one row per stop, in the
    order of the stops: row [k] holds the index [k], the position of
    stop [k] on four decimals and its colour.  The colormap is the same,
    and updating twice is updating once. *)
Theorem stops_table_lists_every_stop :
  forall self,
    let shown := update_tables self in
    List.length (stops_table shown)
      = List.length (colorStops (colormap self))
    /\ (forall k s,
          nth_error (colorStops (colormap self)) k = Some s ->
          nth_error (stops_table shown) k
          = Some (mkRow (Z.of_nat k) (fmt4 (pos s)) (QColor_of_rgb (rgb s))))
    /\ colormap shown = colormap self
    /\ update_tables shown = shown.
Proof.
  intros self shown. subst shown. split; [|split; [|split]].
  - unfold update_tables. cbn [stops_table]. unfold enumerate.
    rewrite length_map, length_combine, py_range_length. lia.
  - intros k s H. unfold update_tables. cbn [stops_table].
    rewrite nth_error_map, (enumerate_nth _ k s H). reflexivity.
  - reflexivity.
  - reflexivity.
Qed.

End MoreLoading.

Lemma saved_arrays_rebuild_what_constructor_builds_witness :
  exists file,
    write_colormap (L := GradientLib) quarter_gradient = Ok file
    /\ colormap_from_arrays (sf_color_positions file) (sf_rgb_colors file)
       = Ok quarter_gradient.
Proof.
  destruct (write_colormap (L := GradientLib) quarter_gradient)
    as [file|e] eqn:Hw; [|vm_compute in Hw; discriminate Hw].
  exists file. split; [reflexivity|].
  rewrite (@saved_arrays_rebuild_what_constructor_builds GradientLib
             quarter_gradient file Hw).
  vm_compute in Hw. injection Hw as Hw. subst file. reflexivity.
Defined.

Lemma short_rgb_colors_fail_witness :
  (0 < List.length [[0; 0; 0]%Q])%nat
  /\ (List.length [[0; 0; 0]%Q] + 2 <= List.length [0; 1 # 2; 1]%Q)%nat
  /\ colormap_from_arrays (L := GradientLib) [0; 1 # 2; 1]%Q [[0; 0; 0]%Q]
     <> Ok quarter_gradient.
Proof.
  assert (H1 : (0 < List.length [[0; 0; 0]%Q])%nat) by (cbn; lia).
  assert (H2 : (List.length [[0; 0; 0]%Q] + 2
                <= List.length [0; 1 # 2; 1]%Q)%nat) by (cbn; lia).
  exact (conj H1 (conj H2
           (proj2 (@short_rgb_colors_fail GradientLib) _ _ H1 H2
              quarter_gradient))).
Defined.

Lemma edit_color_row_out_of_range_witness :
  let self := @init_app GradientLib grey_gradient in
  Z.of_nat (List.length (colorStops (colormap self))) <= 2
  /\ edit_color self 2 2 (Some Qt_white)
     = escapes self (mkExc IndexError "list index out of range").
Proof.
  intros self.
  assert (H : Z.of_nat (List.length (colorStops (colormap self))) <= 2)
    by (cbn; lia).
  exact (conj H (@edit_color_row_out_of_range GradientLib self 2
                   (Some Qt_white) H)).
Defined.

Lemma stops_table_lists_every_stop_witness :
  let self := @init_app GradientLib quarter_gradient in
  nth_error (colorStops (colormap self)) 1
    = Some (mkStop (1 # 4) (qRgb 255 0 0))
  /\ nth_error (stops_table (update_tables self)) 1
     = Some (mkRow 1 (fmt4 (1 # 4)) (QColor_of_rgb (qRgb 255 0 0))).
Proof.
  intros self. split; [reflexivity|].
  exact (proj1 (proj2 (@stops_table_lists_every_stop GradientLib self))
           1%nat (mkStop (1 # 4) (qRgb 255 0 0)) eq_refl).
Defined.

(** ** With the gradient of the specification *)

Module ReloadFacts.
Import Gradient GradientFacts RoundTripFacts.

Local Open Scope Q_scope.

Lemma fmt6_zero x : x == 0 -> fmt6 x = 0.
Proof. intros E. rewrite (fmt6_comp x 0 E). reflexivity. Qed.

Lemma fmt6_one x : x == 1 -> fmt6 x = 1.
Proof. intros E. rewrite (fmt6_comp x 1 E). reflexivity. Qed.

(** What [create_colormap] of the saved file returns when the positions
    stay apart on six decimals. *)
Lemma write_then_create_rounded g :
  valid g = true -> ascending (map rounded_stop g) = true ->
  exists file,
    write_colormap g = Ok file
    /\ create_colormap file tt = Ok (map rounded_stop g).
Proof.
  intros Hv Ha.
  destruct (valid_shape g Hv) as (s0 & mid & sN & E & H0 & H1). subst g.
  pose proof (fmt6_zero _ H0) as F0. pose proof (fmt6_one _ H1) as FN.
  unfold write_colormap. cbn [colorStops GradientLib].
  change (py_index (s0 :: mid ++ [sN]) 0) with (Ok s0). cbn [bind].
  rewrite (app_comm_cons mid [sN] s0), py_index_last. cbn [bind].
  rewrite <- app_comm_cons.
  eexists. split; [reflexivity|].
  unfold create_colormap.
  cbn [sf_color1_rgb sf_color2_rgb sf_addColorStop].
  rewrite !QColor_of_rgb_opaque.
  unfold slice_1_m1. cbn [tl]. rewrite removelast_last.
  cbn [EditableColormap addColorStop GradientLib]. unfold make.
  replace (map (fun stop => (fmt6 (pos stop),
                             QColor_rgb (QColor_of_rgb (rgb stop)))) mid)
    with (map (fun s => (pos s, rgb s)) (map rounded_stop mid))
    by (rewrite map_map; reflexivity).
  change [mkStop 0 (QColor_rgb (QColor_of_rgb (rgb s0)));
          mkStop 1 (QColor_rgb (QColor_of_rgb (rgb sN)))]
    with ([mkStop 0 (QColor_rgb (QColor_of_rgb (rgb s0)))]
            ++ [mkStop 1 (QColor_rgb (QColor_of_rgb (rgb sN)))]).
  rewrite <- F0, <- FN.
  change (mkStop (fmt6 (pos s0)) (QColor_rgb (QColor_of_rgb (rgb s0))))
    with (rounded_stop s0).
  change (mkStop (fmt6 (pos sN)) (QColor_rgb (QColor_of_rgb (rgb sN))))
    with (rounded_stop sN).
  rewrite build_sorted.
  - cbn [map app]. rewrite map_app. reflexivity.
  - cbn [map app] in Ha. rewrite map_app in Ha. exact Ha.
Qed.

Lemma rounded_stops_near g :
  Forall2 (fun s s' => within_half_millionth (pos s) (pos s')
                       /\ channels (rgb s') = channels (rgb s))
          g (map rounded_stop g).
Proof.
  induction g as [|s g IH]; constructor; [|assumption].
  split; [apply FormatFacts.fmt6_near | apply channels_opaque].
Qed.

Lemma py_index_map {A B} (f : A -> B) (l : list A) i :
  py_index (map f l) i
  = match py_index l i with Ok a => Ok (f a) | Raise e => Raise e end.
Proof.
  unfold py_index. rewrite length_map.
  destruct (_ || _)%bool; [reflexivity|].
  rewrite nth_error_map. destruct (nth_error l _); reflexivity.
Qed.

Lemma removelast_map {A B} (f : A -> B) (l : list A) :
  removelast (map f l) = map f (removelast l).
Proof.
  induction l as [|a l IH]; [reflexivity|].
  destruct l as [|b l]; [reflexivity|].
  cbn [map removelast] in *. rewrite IH. reflexivity.
Qed.

Lemma slice_1_m1_map {A B} (f : A -> B) (l : list A) :
  slice_1_m1 (map f l) = map f (slice_1_m1 l).
Proof.
  unfold slice_1_m1. rewrite <- removelast_map.
  destruct l; reflexivity.
Qed.

(** The file depends on the stops through their positions and their
    three channels only. *)
Lemma write_colormap_opaque g :
  write_colormap (L := GradientLib) (map opaque g) = write_colormap g.
Proof.
  unfold write_colormap. cbn [colorStops cm_rgb GradientLib].
  rewrite !py_index_map.
  destruct (py_index g 0) as [s0|e]; cbn [bind]; [|reflexivity].
  destruct (py_index g (-1)) as [sN|e]; cbn [bind]; [|reflexivity].
  rewrite slice_1_m1_map, !map_map. cbn [opaque pos rgb].
  rewrite !QColor_of_rgb_opaque.
  f_equal. f_equal.
  - apply map_ext. intros s. rewrite !QColor_of_rgb_opaque. reflexivity.
  - apply map_ext. intros s. rewrite !QColor_of_rgb_opaque. reflexivity.
  - apply map_ext. intros p.
    rewrite (QColor_of_rgb_channels _ _ (channels_sample_opaque g p)).
    reflexivity.
Qed.

Lemma insert_length s g : List.length (insert s g) = S (List.length g).
Proof.
  induction g as [|x g IH]; [reflexivity|]. cbn [insert].
  destruct (Qle_bool (pos s) (pos x)); cbn [List.length]; congruence.
Qed.

Lemma In_insert_self s g : In s (insert s g).
Proof.
  induction g as [|x g IH]; [left; reflexivity|]. cbn [insert].
  destruct (Qle_bool (pos s) (pos x)); [left; reflexivity | right; exact IH].
Qed.

Lemma nth_error_set_color n c g k :
  nth_error (set_color n c g) k
  = if Nat.eqb k n
    then option_map (fun s => mkStop (pos s) c) (nth_error g k)
    else nth_error g k.
Proof.
  revert n k. induction g as [|s g IH]; intros n k.
  - destruct n, k; cbn [set_color nth_error Nat.eqb option_map];
      try reflexivity.
    destruct (Nat.eqb k n); reflexivity.
  - destruct n, k; cbn [set_color nth_error Nat.eqb option_map];
      try reflexivity.
    apply IH.
Qed.

Lemma py_index_in_range {A} (l : list A) i :
  (0 <= i < Z.of_nat (List.length l))%Z -> exists a, py_index l i = Ok a.
Proof.
  intros H. destruct (nth_error l (Z.to_nat i)) as [a|] eqn:E.
  - exists a. rewrite <- (Z2Nat.id i) by lia. apply py_index_nth.
    assumption.
  - apply nth_error_None in E. lia.
Qed.

Lemma sample_at_zero s0 rest :
  valid (s0 :: rest) = true -> sample (s0 :: rest) 0 = rgb s0.
Proof.
  intros Hv. apply valid_parts in Hv as (_ & H0 & _).
  unfold first_pos in H0. cbn [hd] in H0.
  unfold sample. change (clamp01 0) with 0.
  replace (Qle_bool 0 (pos s0)) with true by (symmetry; qprop; lra).
  reflexivity.
Qed.

Lemma sample_at_one g s0 :
  valid g = true -> sample g 1 = rgb (last g s0).
Proof.
  intros Hv. destruct (valid_shape g Hv) as (a & mid & sN & E & H0 & H1).
  apply valid_parts in Hv as (Ha & _ & _). subst g.
  rewrite app_comm_cons, last_last, <- app_comm_cons.
  unfold sample. change (clamp01 1) with 1.
  replace (Qle_bool 1 (pos a)) with false by (symmetry; qprop; lra).
  apply locate_hit.
  - assumption.
  - apply in_or_app. right. left. reflexivity.
  - symmetry. assumption.
Qed.

End ReloadFacts.

(** X9.  Loading a saved file gives the gradient with every position written
    on six decimals, as long as the positions stay apart when written so:
    each stop is within 0.0000005 of where it was and has the same three
    channels. *)
Theorem load_after_save_rounds_positions :
  forall g,
    Gradient.valid g = true ->
    Gradient.ascending (map rounded_stop g) = true ->
    exists file,
      write_colormap g = Ok file
      /\ load_module (Ok (exec_file file)) = Ok (map rounded_stop g)
      /\ Forall2 (fun s s' => within_half_millionth (pos s) (pos s')
                              /\ channels (rgb s') = channels (rgb s))
                 g (map rounded_stop g).
Proof.
  intros g Hv Ha.
  destruct (ReloadFacts.write_then_create_rounded g Hv Ha)
    as (file & Hw & Hc).
  exists file. split; [assumption|]. split; [exact Hc|].
  apply ReloadFacts.rounded_stops_near.
Qed.

Lemma load_after_save_rounds_positions_witness :
  Gradient.valid binary_gradient = true
  /\ Gradient.ascending (map rounded_stop binary_gradient) = true
  /\ exists file,
      write_colormap binary_gradient = Ok file
      /\ load_module (Ok (exec_file file))
         = Ok (map rounded_stop binary_gradient).
Proof.
  split; [reflexivity|]. split; [reflexivity|].
  destruct (load_after_save_rounds_positions binary_gradient
              eq_refl eq_refl) as (file & Hw & Hl & _).
  exists file. split; assumption.
Defined.

(** X10.  Saving, loading and saving again writes the same file, for a valid
    gradient whose positions are exact to six decimals: the alpha byte
    of a stop, which the file drops, changes nothing in it. *)
Theorem save_load_save_is_stable :
  forall g,
    Gradient.valid g = true -> Gradient.six_decimals g ->
    exists file g',
      write_colormap g = Ok file
      /\ load_module (Ok (exec_file file)) = Ok g'
      /\ write_colormap g' = Ok file.
Proof.
  intros g Hv H6.
  destruct (RoundTripFacts.write_then_create g Hv H6) as (file & Hw & Hc).
  exists file, (map Gradient.opaque g).
  split; [assumption|]. split; [exact Hc|].
  rewrite ReloadFacts.write_colormap_opaque. assumption.
Qed.

Lemma save_load_save_is_stable_witness :
  Gradient.valid quarter_gradient = true
  /\ Gradient.six_decimals quarter_gradient
  /\ exists file g',
      write_colormap quarter_gradient = Ok file
      /\ load_module (Ok (exec_file file)) = Ok g'
      /\ write_colormap g' = Ok file.
Proof.
  assert (H6 : Gradient.six_decimals quarter_gradient)
    by (repeat constructor).
  exact (conj eq_refl (conj H6
           (save_load_save_is_stable quarter_gradient eq_refl H6))).
Defined.

(** X11.  Adding a stop with "Interpolate from Colormap" at a free position of
    [0, 1] puts one more stop in the gradient, keeps the others, keeps
    the gradient valid, and leaves the colour sampled at that position
    as it was. *)
Theorem interpolated_stop_keeps_the_colour :
  forall (self : @App GradientLib) p picked,
    Gradient.valid (colormap self) = true ->
    in_unit_interval p = true ->
    Gradient.occupied (colormap self) p = false ->
    let out :=
      add_new_color_stop self
        (mkAddStop true p InterpolateFromColormap picked) in
    let g := colormap self in
    let g' := colormap (app_after out) in
    escaped out = None
    /\ Gradient.valid g' = true
    /\ List.length g' = S (List.length g)
    /\ (forall s, In s g -> In s g')
    /\ Gradient.occupied g' p = true
    /\ channels (Gradient.sample g' p) = channels (Gradient.sample g p).
Proof.
  intros self p picked Hv Hp Ho out g g'.
  set (s := mkStop p (QColor_rgb (QColor_of_rgb (Gradient.sample g p)))).
  assert (E : out = returns (update_tables
                               (set_colormap self (Gradient.insert s g)))).
  { subst out. unfold s, g, add_new_color_stop.
    cbn [dialog_accepted spinner_value color_method picked_color
         add_handle_at_relative_pos cm_rgb GradientLib].
    unfold Gradient.AddStop. rewrite Ho. reflexivity. }
  assert (Eg : g' = Gradient.insert s g) by (subst g'; rewrite E; reflexivity).
  assert (Hv' : Gradient.valid g' = true).
  { rewrite Eg. apply (SessionFacts.valid_AddStop g p (rgb s)); auto.
    unfold Gradient.AddStop, g. rewrite Ho. reflexivity. }
  assert (Hs : In s g') by (rewrite Eg; apply ReloadFacts.In_insert_self).
  split; [rewrite E; reflexivity|]. split; [assumption|].
  split; [rewrite Eg; apply ReloadFacts.insert_length|].
  split; [intros x Hx; rewrite Eg; apply SessionFacts.In_insert; assumption|].
  split.
  - apply (SessionFacts.occupied_true g' p s); [assumption | reflexivity].
  - change p with (pos s) at 1.
    rewrite (GradientFacts.sample_hit g' s Hv' Hs).
    apply channels_opaque.
Qed.

Lemma interpolated_stop_keeps_the_colour_witness :
  let self := @init_app GradientLib grey_gradient in
  Gradient.valid (colormap self) = true
  /\ in_unit_interval (1 # 2) = true
  /\ Gradient.occupied (colormap self) (1 # 2) = false
  /\ channels
       (Gradient.sample
          (colormap
             (app_after
                (add_new_color_stop self
                   (mkAddStop true (1 # 2) InterpolateFromColormap None))))
          (1 # 2))
     = channels (Gradient.sample (colormap self) (1 # 2)).
Proof.
  intros self.
  split; [reflexivity|]. split; [reflexivity|]. split; [reflexivity|].
  exact (proj2 (proj2 (proj2 (proj2 (proj2
           (interpolated_stop_keeps_the_colour self (1 # 2) None
              eq_refl eq_refl eq_refl)))))).
Defined.

(** X13.  Choosing a colour for the stop of row [row] in the stops table
    recolours that stop and nothing else: the positions are the same, the
    stop of that row has the chosen colour, every other stop is as it
    was. *)
Theorem edit_color_recolours_one_stop :
  forall (self : @App GradientLib) row c,
    0 <= row < Z.of_nat (List.length (colorStops (colormap self))) ->
    let out := edit_color self row 2 (Some c) in
    let g := colormap self in
    let g' := colormap (app_after out) in
    escaped out = None
    /\ map pos g' = map pos g
    /\ nth_error g' (Z.to_nat row)
       = option_map (fun s => mkStop (pos s) (QColor_rgb c))
           (nth_error g (Z.to_nat row))
    /\ (forall k, k <> Z.to_nat row -> nth_error g' k = nth_error g k).
Proof.
  intros self row c Hrow out g g'.
  assert (E : out
              = returns
                  (update_tables
                     (set_colormap self
                        (Gradient.set_color (Z.to_nat row)
                           (QColor_rgb c) g)))).
  { subst out. unfold edit_color. cbn [Z.eqb Pos.eqb].
    destruct (ReloadFacts.py_index_in_range _ row Hrow) as [a ->].
    cbn [edit_color_stop GradientLib]. unfold Gradient.EditStopColor.
    replace (Gradient.valid_index (colormap self) row) with true;
      [reflexivity|].
    symmetry. unfold Gradient.valid_index. cbn [colorStops GradientLib] in Hrow.
    destruct (Z.leb_spec 0 row); [|lia].
    destruct (Z.ltb_spec row (Z.of_nat (List.length (colormap self))));
      [reflexivity | lia]. }
  assert (Eg : g' = Gradient.set_color (Z.to_nat row) (QColor_rgb c) g)
    by (subst g'; rewrite E; reflexivity).
  split; [rewrite E; reflexivity|]. rewrite Eg.
  split; [apply SessionFacts.map_pos_set_color|]. split.
  - rewrite ReloadFacts.nth_error_set_color, Nat.eqb_refl. reflexivity.
  - intros k Hk. rewrite ReloadFacts.nth_error_set_color.
    destruct (Nat.eqb_spec k (Z.to_nat row)); [contradiction | reflexivity].
Qed.

Lemma edit_color_recolours_one_stop_witness :
  let self := @init_app GradientLib quarter_gradient in
  0 <= 1 < Z.of_nat (List.length (colorStops (colormap self)))
  /\ map pos (colormap (app_after (edit_color self 1 2 (Some Qt_white))))
     = map pos (colormap self).
Proof.
  intros self.
  assert (H : 0 <= 1 < Z.of_nat (List.length (colorStops (colormap self))))
    by (cbn; lia).
  exact (conj H (proj1 (proj2
           (edit_color_recolours_one_stop self 1 Qt_white H)))).
Defined.

(** X14.  For a valid gradient the 512 samples start with the colour of the
    first stop and end with the colour of the last one, in the preview
    table and in the array of a saved file. *)
Theorem samples_run_from_first_to_last_stop :
  forall (self : @App GradientLib) s0 rest,
    colormap self = s0 :: rest ->
    Gradient.valid (colormap self) = true ->
    let sN := last rest s0 in
    nth_error (rgb_preview (update_tables self)) 0
      = Some (mkRow 0 0 (QColor_of_rgb (rgb s0)))
    /\ nth_error (rgb_preview (update_tables self)) 511
       = Some (mkRow 511 1 (QColor_of_rgb (rgb sN)))
    /\ forall file,
         write_colormap (colormap self) = Ok file ->
         nth_error (sf_rgb_array file) 0 = Some (channels (rgb s0))
         /\ nth_error (sf_rgb_array file) 511 = Some (channels (rgb sN)).
Proof.
  intros self s0 rest Eg Hv sN.
  assert (H0 : Gradient.sample (colormap self) 0 = rgb s0).
  { rewrite Eg in *. apply ReloadFacts.sample_at_zero. assumption. }
  assert (H1 : Gradient.sample (colormap self) 1 = rgb sN).
  { rewrite (ReloadFacts.sample_at_one _ s0 Hv), Eg. subst sN.
    destruct (GradientFacts.valid_shape _ Hv) as (a & mid & z & E & _).
    rewrite Eg in E. injection E as _ ->.
    f_equal. apply SessionFacts.last_cons. destruct mid; discriminate. }
  split; [|split].
  - unfold update_tables. cbn [rgb_preview].
    rewrite nth_error_map, (py_range_nth 0 512 0) by (cbn; lia).
    cbn [option_map].
    change (py_div (inject_Z (0 + Z.of_nat 0)) (inject_Z (512 - 1)))
      with 0%Q.
    cbn [cm_rgb GradientLib]. rewrite H0. reflexivity.
  - unfold update_tables. cbn [rgb_preview].
    rewrite nth_error_map, (py_range_nth 0 512 511) by (cbn; lia).
    cbn [option_map].
    change (py_div (inject_Z (0 + Z.of_nat 511)) (inject_Z (512 - 1)))
      with 1%Q.
    cbn [cm_rgb GradientLib]. rewrite H1. reflexivity.
  - intros file Hw.
    destruct (write_colormap_arrays (L := GradientLib) _ file Hw) as [-> _].
    unfold saved_positions. rewrite !map_map, !nth_error_map.
    rewrite (py_range_nth 0 512 0), (py_range_nth 0 512 511) by (cbn; lia).
    cbn [option_map].
    change (py_div (inject_Z (0 + Z.of_nat 0)) 511) with 0%Q.
    change (py_div (inject_Z (0 + Z.of_nat 511)) 511) with 1%Q.
    cbn [cm_rgb GradientLib]. rewrite H0, H1. split; reflexivity.
Qed.

Lemma samples_run_from_first_to_last_stop_witness :
  let self := @init_app GradientLib quarter_gradient in
  Gradient.valid (colormap self) = true
  /\ nth_error (rgb_preview (update_tables self)) 511
     = Some (mkRow 511 1 (QColor_of_rgb (qRgb 255 255 255))).
Proof.
  intros self. split; [reflexivity|].
  exact (proj1 (proj2
           (samples_run_from_first_to_last_stop self
              (mkStop 0 (qRgb 0 0 0))
              [mkStop (1 # 4) (qRgb 255 0 0); mkStop 1 (qRgb 255 255 255)]
              eq_refl eq_refl))).
Defined.

(** X12.  A stop added with "Choose Color" at a free position of [0, 1] shows
    the chosen colour at that position and keeps the gradient valid; when
    the colour dialog is cancelled nothing changes. *)
Theorem chosen_stop_shows_its_colour :
  forall (self : @App GradientLib) p,
    Gradient.valid (colormap self) = true ->
    in_unit_interval p = true ->
    Gradient.occupied (colormap self) p = false ->
    (forall c,
        let out :=
          add_new_color_stop self (mkAddStop true p ChooseColor (Some c)) in
        let g' := colormap (app_after out) in
        escaped out = None
        /\ Gradient.valid g' = true
        /\ Gradient.sample g' p = QColor_rgb c
        /\ List.length g' = S (List.length (colormap self)))
    /\ add_new_color_stop self (mkAddStop true p ChooseColor None)
       = returns self.
Proof.
  intros self p Hv Hp Ho. split; [|reflexivity].
  intros c out g'.
  set (s := mkStop p (QColor_rgb c)).
  assert (E : out = returns (update_tables
                               (set_colormap self
                                  (Gradient.insert s (colormap self))))).
  { subst out. unfold s, add_new_color_stop.
    cbn [dialog_accepted spinner_value color_method picked_color
         add_handle_at_relative_pos GradientLib].
    unfold Gradient.AddStop. rewrite Ho. reflexivity. }
  assert (Eg : g' = Gradient.insert s (colormap self))
    by (subst g'; rewrite E; reflexivity).
  assert (Hv' : Gradient.valid g' = true).
  { rewrite Eg.
    apply (SessionFacts.valid_AddStop (colormap self) p (rgb s)); auto.
    unfold Gradient.AddStop. rewrite Ho. reflexivity. }
  split; [rewrite E; reflexivity|]. split; [assumption|]. split.
  - change p with (pos s) at 1.
    apply (GradientFacts.sample_hit g' s Hv').
    rewrite Eg. apply ReloadFacts.In_insert_self.
  - rewrite Eg. apply ReloadFacts.insert_length.
Qed.

Lemma chosen_stop_shows_its_colour_witness :
  let self := @init_app GradientLib grey_gradient in
  Gradient.valid (colormap self) = true
  /\ in_unit_interval (1 # 2) = true
  /\ Gradient.occupied (colormap self) (1 # 2) = false
  /\ Gradient.sample
       (colormap
          (app_after
             (add_new_color_stop self
                (mkAddStop true (1 # 2) ChooseColor
                   (Some (mkColor 255 0 0))))))
       (1 # 2)
     = qRgb 255 0 0.
Proof.
  intros self.
  split; [reflexivity|]. split; [reflexivity|]. split; [reflexivity|].
  exact (proj1 (proj2 (proj2
           (proj1 (chosen_stop_shows_its_colour self (1 # 2)
                     eq_refl eq_refl eq_refl)
              (mkColor 255 0 0))))).
Defined.

Module MiddleSampleFacts.
Import Gradient GradientFacts.

Local Open Scope Q_scope.

Lemma Qfloor_unique x n :
  inject_Z n <= x -> x < inject_Z n + 1 -> Qfloor x = n.
Proof.
  intros Hlo Hhi.
  pose proof (Qfloor_le x) as Fl. pose proof (Qlt_floor x) as Fh.
  rewrite inject_Z_plus in Fh. change (inject_Z 1) with 1 in Fh.
  assert (H1 : (n < Qfloor x + 1)%Z).
  { rewrite Zlt_Qlt, inject_Z_plus. change (inject_Z 1) with 1. lra. }
  assert (H2 : (Qfloor x < n + 1)%Z).
  { rewrite Zlt_Qlt, inject_Z_plus. change (inject_Z 1) with 1. lra. }
  lia.
Qed.

Lemma inject_Z_byte k : is_byte k -> 0 <= inject_Z k /\ inject_Z k <= 255.
Proof.
  intros [H0 H1]. split.
  - change 0 with (inject_Z 0). rewrite <- Zle_Qle. assumption.
  - change 255 with (inject_Z 255). rewrite <- Zle_Qle. assumption.
Qed.

(** One 511th of the way to the next stop is not enough to change a
    channel. *)
Lemma channel_small_step lo hi t :
  is_byte lo -> is_byte hi -> t == 1 # 511 -> channel lo hi t = lo.
Proof.
  intros Hlo Hhi Ht. unfold channel, round.
  destruct (inject_Z_byte lo Hlo) as [L0 L1].
  destruct (inject_Z_byte hi Hhi) as [U0 U1].
  rewrite (Qfloor_unique _ lo).
  - unfold clamp255. unfold is_byte in Hlo. lia.
  - rewrite Ht. lra.
  - rewrite Ht. lra.
Qed.

End MiddleSampleFacts.

(** X15.  A stop at one half that is followed by the last stop is sampled
    with its own colour at index 256 of the 512 samples, although the
    position of that sample, 256/511, lies a little above one half. *)
Theorem stop_at_half_fills_sample_256 :
  forall g l1 lo hi,
    Gradient.valid g = true ->
    g = l1 ++ [lo; hi] ->
    (pos lo == 1 # 2)%Q ->
    forall file,
      write_colormap g = Ok file ->
      nth_error (sf_rgb_array file) 256 = Some (channels (rgb lo)).
Proof.
  intros g l1 lo hi Hv Eg Hlo file Hw.
  destruct (write_colormap_arrays (L := GradientLib) g file Hw) as [-> _].
  unfold saved_positions. rewrite !map_map, nth_error_map.
  rewrite (py_range_nth 0 512 256) by (cbn; lia). cbn [option_map].
  change (py_div (inject_Z (0 + Z.of_nat 256)) 511) with (256 # 511)%Q.
  cbn [cm_rgb GradientLib]. f_equal.
  assert (Hhi : (pos hi == 1)%Q).
  { destruct (GradientFacts.valid_parts g Hv) as (_ & _ & H1).
    unfold Gradient.last_pos in H1. rewrite Eg in H1.
    change (l1 ++ [lo; hi]) with (l1 ++ [lo] ++ [hi]) in H1.
    rewrite app_assoc, last_last in H1. exact H1. }
  rewrite (GradientFacts.sample_between g l1 lo hi [] (256 # 511) Hv Eg)
    by lra.
  rewrite GradientFacts.channels_interpolate. cbv zeta.
  assert (Ht : (((256 # 511) - pos lo) / (pos hi - pos lo) == 1 # 511)%Q)
    by (rewrite Hlo, Hhi; reflexivity).
  rewrite (MiddleSampleFacts.channel_small_step _ _ _
             (FormatFacts.is_byte_qRed _) (FormatFacts.is_byte_qRed _) Ht).
  rewrite (MiddleSampleFacts.channel_small_step _ _ _
             (FormatFacts.is_byte_qGreen _) (FormatFacts.is_byte_qGreen _)
             Ht).
  rewrite (MiddleSampleFacts.channel_small_step _ _ _
             (FormatFacts.is_byte_qBlue _) (FormatFacts.is_byte_qBlue _) Ht).
  reflexivity.
Qed.

Lemma stop_at_half_fills_sample_256_witness :
  let g := [mkStop 0 (qRgb 0 0 255); mkStop (1 # 2) (qRgb 255 0 0);
            mkStop 1 (qRgb 255 255 0)] in
  Gradient.valid g = true
  /\ (pos (mkStop (1 # 2) (qRgb 255 0 0)) == 1 # 2)%Q
  /\ exists file,
      write_colormap g = Ok file
      /\ nth_error (sf_rgb_array file) 256 = Some [255; 0; 0].
Proof.
  intros g. split; [reflexivity|]. split; [reflexivity|].
  destruct (write_colormap (L := GradientLib) g) as [file|e] eqn:Hw;
    [|vm_compute in Hw; discriminate Hw].
  exists file. split; [reflexivity|].
  exact (stop_at_half_fills_sample_256 g
           [mkStop 0 (qRgb 0 0 255)] (mkStop (1 # 2) (qRgb 255 0 0))
           (mkStop 1 (qRgb 255 255 0)) eq_refl eq_refl (Qeq_refl _)
           file Hw).
Defined.

Lemma last_map_stop (f : ColorStop -> ColorStop) l d :
  last (map f l) (f d) = f (last l d).
Proof.
  induction l as [|a l IH]; [reflexivity|].
  destruct l as [|b l]; [reflexivity|]. exact IH.
Qed.

Lemma saved_triple_rounded s : saved_triple (rounded_stop s) = saved_triple s.
Proof.
  unfold saved_triple, rounded_stop. cbn [rgb].
  rewrite QColor_of_rgb_opaque. reflexivity.
Qed.

(** X16.  The stop data of a saved file is settled after one save: for
    the gradient with the positions as the file holds them, a second
    save writes the same [color_positions], the same [rgb_colors], the
    same two constructor colours and the same [addColorStop] lines. *)
Theorem stop_data_is_settled_after_one_save :
  forall (g : Gradient.t) file file',
    write_colormap g = Ok file ->
    write_colormap (L := GradientLib) (map rounded_stop g) = Ok file' ->
    sf_color_positions file' = sf_color_positions file
    /\ sf_rgb_colors file' = sf_rgb_colors file
    /\ sf_color1_rgb file' = sf_color1_rgb file
    /\ sf_color2_rgb file' = sf_color2_rgb file
    /\ sf_addColorStop file' = sf_addColorStop file.
Proof.
  intros g file file' Hw Hw'.
  destruct (write_colormap_shape (L := GradientLib) g file Hw)
    as (s0 & rest & Eg & Hp & Hc & H1 & H2 & Ha).
  destruct (write_colormap_shape (L := GradientLib) _ file' Hw')
    as (s0' & rest' & Eg' & Hp' & Hc' & H1' & H2' & Ha').
  cbn [colorStops GradientLib] in Eg, Eg'. subst g.
  cbn [map] in Eg'. injection Eg' as <- <-.
  rewrite Hp, Hc, H1, H2, Ha, Hp', Hc', H1', H2', Ha'.
  change (rounded_stop s0 :: map rounded_stop rest)
    with (map rounded_stop (s0 :: rest)).
  rewrite last_map_stop, ReloadFacts.slice_1_m1_map, !map_map.
  cbn [rounded_stop pos rgb]. rewrite !QColor_of_rgb_opaque.
  split; [|split; [|split; [|split]]]; try reflexivity.
  - apply map_ext. intros s. apply FormatFacts.fmt6_idempotent.
  - apply map_ext. intros s.
    change (mkStop (fmt6 (pos s)) (QColor_rgb (QColor_of_rgb (rgb s))))
      with (rounded_stop s).
    rewrite saved_triple_rounded. reflexivity.
  - apply map_ext. intros s.
    rewrite FormatFacts.fmt6_idempotent, QColor_of_rgb_opaque. reflexivity.
Qed.

Lemma stop_data_is_settled_after_one_save_witness :
  exists file file',
    write_colormap binary_gradient = Ok file
    /\ write_colormap (L := GradientLib) (map rounded_stop binary_gradient)
       = Ok file'
    /\ sf_color_positions file' = sf_color_positions file
    /\ sf_addColorStop file' = sf_addColorStop file.
Proof.
  destruct (write_colormap (L := GradientLib) binary_gradient)
    as [file|e] eqn:Hw; [|vm_compute in Hw; discriminate Hw].
  destruct (write_colormap (L := GradientLib)
              (map rounded_stop binary_gradient))
    as [file'|e] eqn:Hw'; [|vm_compute in Hw'; discriminate Hw'].
  exists file, file'. split; [reflexivity|]. split; [reflexivity|].
  destruct (stop_data_is_settled_after_one_save
              binary_gradient file file' Hw Hw') as (H1 & _ & _ & _ & H5).
  split; assumption.
Defined.
